(** * Flight search page: filter/sort pipeline, reveal ladder and search fan-out

    Shallow embedding of the search page component (the [Index] page):
    - [filterAndSortFlights], over a store of JavaScript arrays, so that the
      in-place [Array.prototype.sort] and the aliasing [let filtered = flights]
      are visible;
    - [handleShowMore], the reveal ladder over the filter options;
    - [handleSearch], as the sequence of callbacks the event loop runs: the
      synchronous prefix, one handler per settled fetch, and the continuation
      after [Promise.allSettled];
    and of two admin components: [fetchStats] of [SearchStatistics], and
    [fetchHeldTickets] and [handleDeleteTicket] of [PendingTickets], each as a
    function of what its queries resolve to.

    JavaScript numbers are modelled by [Z] (prices, stop counts) and by
    [number] where the code can produce [NaN]; strings by [string]. *)

From Stdlib Require Import ZArith List String Ascii Bool Lia Permutation Sorted.
From stdpp Require Import base list.
Import ListNotations.
Local Open Scope string_scope.
Local Open Scope list_scope.
Local Open Scope Z_scope.

(** ** Data model *)

(** One leg of a trip, as read by the page ([departure.stops], [departure.time], ...). *)
Record Leg := mkLeg {
  airport : string;
  date : string;
  time : string;
  stops : Z
}.

(** [Flight] as the page uses it; [return_] is the optional return leg
    ([flight.return], absent for one-way trips). *)
Record Flight := mkFlight {
  id : string;
  airline : string;
  price : Z;
  departure : Leg;
  return_ : option Leg;
  duration : string;
  baggageType : string;
  availableSeats : Z
}.

(** [FilterOptions], the state held in [filters]. *)
Record FilterOptions := mkFilters {
  airlines : list string;
  showCheapestOnly : bool;
  directFlightsOnly : bool;
  show2pc : bool;
  sortBy : string
}.

(** The value of [useState<FilterOptions>] at mount. *)
Definition initialFilters : FilterOptions :=
  {| airlines := ["VJ"; "VNA"];
     showCheapestOnly := true;
     directFlightsOnly := true;
     show2pc := true;
     sortBy := "price" |}.

(** ** JavaScript numbers that may be NaN *)

Inductive number := NaN | Num (z : Z).

(** [a - b] on numbers. *)
Definition number_sub (a b : number) : number :=
  match a, b with
  | Num x, Num y => Num (x - y)
  | _, _ => NaN
  end.

(** [\d] of a JavaScript regular expression: the ten ASCII digits. *)
Definition isDigit (c : ascii) : bool :=
  let n := nat_of_ascii c in (Nat.leb 48 n && Nat.leb n 57)%bool.

(** [s.replace(/[^\d]/g, '')]. *)
Fixpoint stripNonDigits (s : string) : string :=
  match s with
  | EmptyString => EmptyString
  | String c r => if isDigit c then String c (stripNonDigits r) else stripNonDigits r
  end.

(** Value of the leading run of decimal digits of [s], with the digits read so far
    in [acc]; [seen] tells whether a digit was read. *)
Fixpoint parseDigits (seen : bool) (acc : Z) (s : string) : number :=
  match s with
  | String c r =>
      if isDigit c
      then parseDigits true (10 * acc + (Z.of_nat (nat_of_ascii c) - 48)) r
      else if seen then Num acc else NaN
  | EmptyString => if seen then Num acc else NaN
  end.

(** [parseInt(s)] on the strings the page passes to it (no sign, no blank, no
    radix prefix: they are what [stripNonDigits] leaves): [NaN] when there is no
    digit.  The number is read exactly; JavaScript rounds it to a double, which
    is the same number below 2^53, the range the statements about the duration
    sort assume ([durationsExact]). *)
Definition parseInt (s : string) : number := parseDigits false 0 s.

(** ** The array store *)

(** A JavaScript array is a reference; [heap] maps a location to the contents. *)
Definition loc := nat.
Definition heap := list (list Flight).

(** State passing over the array store. *)
Definition M (A : Type) : Type := heap -> A * heap.

Definition ret {A} (a : A) : M A := fun h => (a, h).
Definition bind {A B} (m : M A) (k : A -> M B) : M B :=
  fun h => let '(a, h') := m h in k a h'.

Notation "'let*' x ':=' m 'in' k" := (bind m (fun x => k))
  (at level 10, x name, m at level 100, k at level 200).

(** Contents of the array at [a] (a reference the program holds is never dangling;
    the default only makes the function total). *)
Definition Array_read (a : loc) : M (list Flight) :=
  fun h => (default [] (h !! a), h).

(** A fresh array holding [xs] (an array literal, or the result of a copying method). *)
Definition Array_new (xs : list Flight) : M loc :=
  fun h => (List.length h, h ++ [xs]).

(** [a.filter(p)]: a new array, [a] untouched. *)
Definition Array_filter (p : Flight -> bool) (a : loc) : M loc :=
  let* xs := Array_read a in Array_new (List.filter p xs).

(** [a.length]. *)
Definition Array_length (a : loc) : M nat :=
  let* xs := Array_read a in ret (List.length xs).

(** [a.reduce(f)] without initial value, on a non-empty array: a left fold that
    starts from the first element.  The page guards the call by [a.length > 0];
    [None] stands for the empty case the guard excludes. *)
Definition reduce1 (f : Flight -> Flight -> Flight) (xs : list Flight) : option Flight :=
  match xs with
  | [] => None
  | x :: rest => Some (fold_left f rest x)
  end.

Definition Array_reduce (f : Flight -> Flight -> Flight) (a : loc) : M (option Flight) :=
  let* xs := Array_read a in ret (reduce1 f xs).

(** *** Sorting *)

(** [SortCompare] of ECMAScript: a comparator result that is NaN counts as [+0]. *)
Definition sortCompare (comparefn : Flight -> Flight -> number) (a b : Flight) : Z :=
  match comparefn a b with
  | NaN => 0
  | Num v => v
  end.

(** [Array.prototype.sort] is stable (ECMAScript 2019); it is modelled by the
    stable insertion sort: [x] goes before the first element it does not
    compare greater than.  For a consistent comparator the standard fixes the
    result, the stable sorted arrangement, and this is the one computed here
    ([sorted_is_the_stable_sort]); for an inconsistent one (a NaN result next
    to numeric ones) the order is left to the engine, and the statements about
    the duration and departure sorts assume consistency. *)
Fixpoint insertSorted (cmp : Flight -> Flight -> Z) (x : Flight) (l : list Flight) : list Flight :=
  match l with
  | [] => [x]
  | y :: l' => if cmp x y <=? 0 then x :: y :: l' else y :: insertSorted cmp x l'
  end.

Fixpoint sorted (cmp : Flight -> Flight -> Z) (l : list Flight) : list Flight :=
  match l with
  | [] => []
  | x :: l' => insertSorted cmp x (sorted cmp l')
  end.

(** Neighbours are in order for [cmp]. *)
Inductive ordered (cmp : Flight -> Flight -> Z) : list Flight -> Prop :=
| ordered_nil : ordered cmp []
| ordered_one x : ordered cmp [x]
| ordered_cons x y l :
    cmp x y <= 0 -> ordered cmp (y :: l) -> ordered cmp (x :: y :: l).

(** [a.sort(comparefn)]: sorts the array at [a] in place and returns [a] itself. *)
Definition Array_sort (comparefn : Flight -> Flight -> number) (a : loc) : M loc :=
  fun h => (a, alter (sorted (sortCompare comparefn)) a h).

(** ** filterAndSortFlights *)

Section Pipeline.

(** [String.prototype.localeCompare]: the collation of the runtime, a parameter. *)
Variable localeCompare : string -> string -> Z.

(** [filters.airlines.includes(flight.airline)]. *)
Definition includesAirline (filters : FilterOptions) (flight : Flight) : bool :=
  existsb (String.eqb (airline flight)) (airlines filters).

(** The direct-flight callback: departure leg only for a one-way flight, both
    legs for a round trip. *)
Definition isDirect (flight : Flight) : bool :=
  match return_ flight with
  | None => stops (departure flight) =? 0
  | Some r => (stops (departure flight) =? 0) && (stops r =? 0)
  end.

(** The 2pc callback: [airline === 'VJ' || airline === 'VNA' && baggageType === 'VFR']. *)
Definition is2pc (flight : Flight) : bool :=
  (airline flight =? "VJ")%string
  || (airline flight =? "VNA")%string && (baggageType flight =? "VFR")%string.

(** The callbacks [f => f.airline === 'VJ'] and [f => f.airline === 'VNA']. *)
Definition isVJ (f : Flight) : bool := (airline f =? "VJ")%string.
Definition isVNA (f : Flight) : bool := (airline f =? "VNA")%string.

(** The [reduce] callback: [prev.price < current.price ? prev : current]. *)
Definition cheaper (prev current : Flight) : Flight :=
  if price prev <? price current then prev else current.

(** The [sort] callback: the [switch] on [filters.sortBy]. *)
Definition compareFlights (filters : FilterOptions) (a b : Flight) : number :=
  if (sortBy filters =? "price")%string then
    Num (price a - price b)
  else if (sortBy filters =? "duration")%string then
    let aDuration := parseInt (stripNonDigits (duration a)) in
    let bDuration := parseInt (stripNonDigits (duration b)) in
    number_sub aDuration bDuration
  else if (sortBy filters =? "departure")%string then
    Num (localeCompare (time (departure a)) (time (departure b)))
  else
    Num 0.

(** Filter by airlines. *)
Definition filterByAirlines (filters : FilterOptions) (filtered : loc) : M loc :=
  if (0 <? List.length (airlines filters))%nat
  then Array_filter (includesAirline filters) filtered
  else ret filtered.

(** Filter for direct flights only. *)
Definition filterDirect (filters : FilterOptions) (filtered : loc) : M loc :=
  if directFlightsOnly filters
  then Array_filter isDirect filtered
  else ret filtered.

(** Filter for 2pc. *)
Definition filter2pc (filters : FilterOptions) (filtered : loc) : M loc :=
  if show2pc filters
  then Array_filter is2pc filtered
  else ret filtered.

(** [[cheapestVJ, cheapestVNA].filter(Boolean)]: the non-null entries, in order
    (the array literal is dropped at once; only the filtered copy is stored). *)
Definition nonNull (xs : list (option Flight)) : list Flight :=
  omap (fun x => x) xs.

(** Filter for cheapest only. *)
Definition filterCheapest (filters : FilterOptions) (filtered : loc) : M loc :=
  if showCheapestOnly filters then
    let* vjFlights := Array_filter isVJ filtered in
    let* vnaFlights := Array_filter isVNA filtered in
    let* nVJ := Array_length vjFlights in
    let* cheapestVJ := (if (0 <? nVJ)%nat then Array_reduce cheaper vjFlights else ret None) in
    let* nVNA := Array_length vnaFlights in
    let* cheapestVNA := (if (0 <? nVNA)%nat then Array_reduce cheaper vnaFlights else ret None) in
    Array_new (nonNull [cheapestVJ; cheapestVNA])
  else ret filtered.

(** The whole function: [let filtered = flights], the four guarded stages, then
    [filtered.sort(...)] and [return filtered]. *)
Definition filterAndSortFlights (filters : FilterOptions) (flights : loc) : M loc :=
  let filtered := flights in
  let* filtered := filterByAirlines filters filtered in
  let* filtered := filterDirect filters filtered in
  let* filtered := filter2pc filters filtered in
  let* filtered := filterCheapest filters filtered in
  Array_sort (compareFlights filters) filtered.

(** Runs a stage on a store that holds only the array [flights] and returns the
    contents of the array the stage returns. *)
Definition contents (stage : loc -> M loc) (flights : list Flight) : list Flight :=
  let '(r, h) := stage 0%nat [flights] in default [] (h !! r).

(** The contents of the input array after the stage has run. *)
Definition inputAfter (stage : loc -> M loc) (flights : list Flight) : list Flight :=
  let '(_, h) := stage 0%nat [flights] in default [] (h !! 0%nat).

(** The sequence [filterAndSortFlights] returns on the sequence [flights]. *)
Definition evaluate (filters : FilterOptions) (flights : list Flight) : list Flight :=
  contents (filterAndSortFlights filters) flights.

(** The array the cheapest-only block receives: the first three stages. *)
Definition preReduction (filters : FilterOptions) (flights : list Flight) : list Flight :=
  contents (fun a =>
    let* filtered := filterByAirlines filters a in
    let* filtered := filterDirect filters filtered in
    filter2pc filters filtered) flights.

End Pipeline.

(** ** handleShowMore *)

(** The updater passed to [setFilters] by [handleShowMore]. *)
Definition handleShowMore (prev : FilterOptions) : FilterOptions :=
  if showCheapestOnly prev then
    {| airlines := airlines prev;
       showCheapestOnly := false;
       directFlightsOnly := directFlightsOnly prev;
       show2pc := show2pc prev;
       sortBy := sortBy prev |}
  else if directFlightsOnly prev then
    {| airlines := airlines prev;
       showCheapestOnly := showCheapestOnly prev;
       directFlightsOnly := false;
       show2pc := show2pc prev;
       sortBy := sortBy prev |}
  else
    {| airlines := airlines prev;
       showCheapestOnly := showCheapestOnly prev;
       directFlightsOnly := directFlightsOnly prev;
       show2pc := false;
       sortBy := sortBy prev |}.

(** [shouldShowMoreButton], computed at render from the current filters. *)
Definition shouldShowMoreButton (cfg : FilterOptions) : bool :=
  showCheapestOnly cfg || directFlightsOnly cfg.

(** [n] clicks on the button. *)
Fixpoint showMoreTimes (n : nat) (cfg : FilterOptions) : FilterOptions :=
  match n with
  | O => cfg
  | S k => handleShowMore (showMoreTimes k cfg)
  end.

(** ** handleSearch *)

(** The permissions of the signed-in profile ([profile] may be null). *)
Record Profile := mkProfile {
  perm_check_vj : bool;
  perm_check_vna : bool
}.

(** The two fetchers, [fetchVietJetFlights] and [fetchVietnamAirlinesFlights]. *)
Inductive Source := VietJet | VietnamAirlines.

Definition Source_eqb (a b : Source) : bool :=
  match a, b with
  | VietJet, VietJet | VietnamAirlines, VietnamAirlines => true
  | _, _ => false
  end.

(** How a fetch promise settles. *)
Inductive Settlement :=
| Fulfilled (value : list Flight)
| Rejected (reason : string).

(** The React state of the page that the search reads and writes, and the lines
    written by [console.error]. *)
Record Page := mkPage {
  flights : list Flight;
  loading : bool;
  error : option string;
  searchPerformed : bool;
  filters : FilterOptions;
  consoleErrors : list string
}.

(** One call of [handleSearch] suspended at [await Promise.allSettled(promises)]:
    its [promises] in the order they were pushed, each pending ([None]) or
    settled, and whether the continuation after the [await] is still to run. *)
Record Invocation := mkInvocation {
  promises : list (Source * option Settlement);
  awaiting : bool
}.

(** The page and every call of [handleSearch] made so far, oldest first. *)
Record World := mkWorld {
  page : Page;
  invocations : list Invocation
}.

(** What the event loop runs: a call of [handleSearch] up to its [await]; the
    handlers of one fetch promise of call [n] when it settles; the rest of call
    [n] once all its promises are settled. *)
Inductive Event :=
| Search (profile : option Profile)
| Settle (n : nat) (src : Source) (outcome : Settlement)
| AllSettled (n : nat).

(** [profile?.perm_check_vj === true] and [profile?.perm_check_vna === true]. *)
Definition canCheckVJ (profile : option Profile) : bool :=
  match profile with Some p => perm_check_vj p | None => false end.

Definition canCheckVNA (profile : option Profile) : bool :=
  match profile with Some p => perm_check_vna p | None => false end.

Definition noPermissionMessage : string :=
  "Tính năng tìm kiếm chuyến bay đã bị khóa. Vui lòng liên hệ admin để được cấp quyền.".

(** [availableAirlines]. *)
Definition availableAirlines (profile : option Profile) : list string :=
  (if canCheckVJ profile then ["VJ"] else []) ++
  (if canCheckVNA profile then ["VNA"] else []).

(** Synchronous prefix of [handleSearch]: the permission gate, the resets, and
    the fetches started (one pending promise per permitted airline). *)
Definition startSearch (profile : option Profile) (w : World) : World :=
  if negb (canCheckVJ profile) && negb (canCheckVNA profile) then
    {| page := {| flights := flights (page w);
                  loading := loading (page w);
                  error := Some noPermissionMessage;
                  searchPerformed := searchPerformed (page w);
                  filters := filters (page w);
                  consoleErrors := consoleErrors (page w) |};
       invocations := invocations w |}
  else
    {| page := {| flights := [];
                  loading := true;
                  error := None;
                  searchPerformed := true;
                  filters := {| airlines := availableAirlines profile;
                                showCheapestOnly := true;
                                directFlightsOnly := true;
                                show2pc := true;
                                sortBy := "price" |};
                  consoleErrors := consoleErrors (page w) |};
       invocations := invocations w ++
         [ {| promises :=
                (if canCheckVJ profile then [(VietJet, None)] else []) ++
                (if canCheckVNA profile then [(VietnamAirlines, None)] else []);
              awaiting := true |} ] |}.

(** The line a [catch] handler writes with [console.error]. *)
Definition errorLine (src : Source) : string :=
  match src with
  | VietJet => "VietJet API error:"
  | VietnamAirlines => "Vietnam Airlines API error:"
  end.

(** The [then]/[catch] handlers attached to a fetch promise: a non-empty batch
    is appended with [setFlights(prev => [...prev, ...batch])]; a rejection is
    only written to the console. *)
Definition onSettled (src : Source) (outcome : Settlement) (p : Page) : Page :=
  match outcome with
  | Fulfilled batch =>
      if (0 <? List.length batch)%nat then
        {| flights := flights p ++ batch;
           loading := loading p;
           error := error p;
           searchPerformed := searchPerformed p;
           filters := filters p;
           consoleErrors := consoleErrors p |}
      else p
  | Rejected reason =>
      {| flights := flights p;
         loading := loading p;
         error := error p;
         searchPerformed := searchPerformed p;
         filters := filters p;
         consoleErrors := consoleErrors p ++ [errorLine src] |}
  end.

(** Marks the first pending promise of [src] as settled; [None] when there is none. *)
Fixpoint settlePromise (src : Source) (outcome : Settlement)
    (ps : list (Source * option Settlement)) : option (list (Source * option Settlement)) :=
  match ps with
  | [] => None
  | (s, None) :: rest =>
      if Source_eqb s src then Some ((s, Some outcome) :: rest)
      else option_map (cons (s, None)) (settlePromise src outcome rest)
  | (s, Some o) :: rest => option_map (cons (s, Some o)) (settlePromise src outcome rest)
  end.

(** [results.forEach(...)]: the values of the fulfilled promises, concatenated in
    promise order; [None] while a promise is pending. *)
Fixpoint allFlights (ps : list (Source * option Settlement)) : option (list Flight) :=
  match ps with
  | [] => Some []
  | (_, None) :: _ => None
  | (_, Some (Fulfilled value)) :: rest => option_map (app value) (allFlights rest)
  | (_, Some (Rejected _)) :: rest => allFlights rest
  end.

(** [hasDirectFlights] and [hasVfr2pc] as [handleSearch] computes them. *)
Definition searchHasDirectFlights (fs : list Flight) : bool :=
  existsb (fun f => stops (departure f) =? 0) fs.

Definition hasVfr2pc (fs : list Flight) : bool :=
  existsb (fun f => (airline f =? "VNA")%string && (baggageType f =? "VFR")%string) fs.

(** [hasDirectFlights] as the render computes it for the filter panel. *)
Definition hasDirectFlights (fs : list Flight) : bool :=
  existsb isDirect fs.

(** The updater passed to [setFilters] after the [await]. *)
Definition autoAdjust (all : list Flight) (prev : FilterOptions) : FilterOptions :=
  {| airlines := airlines prev;
     showCheapestOnly := showCheapestOnly prev;
     directFlightsOnly := if searchHasDirectFlights all then directFlightsOnly prev else false;
     show2pc := if hasVfr2pc all then show2pc prev else false;
     sortBy := sortBy prev |}.

(** The rest of [handleSearch] after the [await]: [Promise.allSettled] never
    rejects, so the [catch] clause is not entered; [finally] clears [loading]. *)
Definition afterAllSettled (all : list Flight) (p : Page) : Page :=
  {| flights := flights p;
     loading := false;
     error := error p;
     searchPerformed := searchPerformed p;
     filters := autoAdjust all (filters p);
     consoleErrors := consoleErrors p |}.

(** One event; [None] when the event cannot occur in [w] (no such call, no
    pending promise of that source, promises still pending, continuation
    already run). *)
Definition step (w : World) (e : Event) : option World :=
  match e with
  | Search profile => Some (startSearch profile w)
  | Settle n src outcome =>
      match invocations w !! n with
      | Some inv =>
          match settlePromise src outcome (promises inv) with
          | Some ps =>
              Some {| page := onSettled src outcome (page w);
                      invocations :=
                        <[n := {| promises := ps; awaiting := awaiting inv |}]> (invocations w) |}
          | None => None
          end
      | None => None
      end
  | AllSettled n =>
      match invocations w !! n with
      | Some inv =>
          if awaiting inv then
            match allFlights (promises inv) with
            | Some all =>
                Some {| page := afterAllSettled all (page w);
                        invocations :=
                          <[n := {| promises := promises inv; awaiting := false |}]> (invocations w) |}
            | None => None
            end
          else None
      | None => None
      end
  end.

(** A sequence of events, in the order the event loop runs them. *)
Fixpoint run (w : World) (es : list Event) : option World :=
  match es with
  | [] => Some w
  | e :: rest =>
      match step w e with
      | Some w' => run w' rest
      | None => None
      end
  end.

(** The page at mount, before any search. *)
Definition initialWorld : World :=
  {| page := {| flights := [];
                loading := false;
                error := None;
                searchPerformed := false;
                filters := initialFilters;
                consoleErrors := [] |};
     invocations := [] |}.

(** Whether the render shows the button: it sits inside the block rendered
    when [filteredFlights.length > 0], under [shouldShowMoreButton]. *)
Definition showMoreButtonRendered (localeCompare : string -> string -> Z) (p : Page) : bool :=
  (0 <? List.length (evaluate localeCompare (filters p) (flights p)))%nat
  && shouldShowMoreButton (filters p).

(** [stage] computes [f] in every store: called on an array holding [xs], it
    only allocates, and the array it returns holds [f xs]. *)
Definition computes (stage : loc -> M loc) (f : list Flight -> list Flight) : Prop :=
  forall (h : heap) a xs, h !! a = Some xs ->
    exists r ext, stage a h = (r, h ++ ext) /\ (h ++ ext) !! r = Some (f xs).




(** ** Concrete data for the examples *)

(** Comparison by code units, a collation [localeCompare] can be run with. *)
Definition ordinalCompare (a b : string) : Z :=
  match String.compare a b with
  | Lt => -1
  | Eq => 0
  | Gt => 1
  end.

Definition directLeg : Leg :=
  {| airport := "HAN"; date := "2025-03-01"; time := "08:00"; stops := 0 |}.

Definition oneStopLeg : Leg :=
  {| airport := "HAN"; date := "2025-03-01"; time := "09:30"; stops := 1 |}.

(** A one-way direct flight. *)
Definition oneWay (i a : string) (p : Z) (bag : string) : Flight :=
  {| id := i; airline := a; price := p; departure := directLeg; return_ := None;
     duration := "2h 10m"; baggageType := bag; availableSeats := 9 |}.

(** Every stage switched off and no airline selected. *)
Definition noFilters : FilterOptions :=
  {| airlines := []; showCheapestOnly := false; directFlightsOnly := false;
     show2pc := false; sortBy := "price" |}.

(** A sort key outside the three the [switch] knows. *)
Definition arrivalFilters : FilterOptions :=
  {| airlines := ["VJ"; "VNA"]; showCheapestOnly := false; directFlightsOnly := true;
     show2pc := true; sortBy := "arrival" |}.

Definition bothAirlines : option Profile :=
  Some {| perm_check_vj := true; perm_check_vna := true |}.

(** Sort by departure time, every reduction on. *)
Definition byDeparture : FilterOptions :=
  {| airlines := ["VJ"; "VNA"]; showCheapestOnly := false; directFlightsOnly := true;
     show2pc := true; sortBy := "departure" |}.

(** Two VJ flights of the same price. *)
Definition twins : list Flight :=
  [oneWay "a" "VJ" 100 "ECO"; oneWay "b" "VJ" 100 "ECO"].

(** Two VJ flights, the dearer first. *)
Definition dearerFirst : list Flight :=
  [oneWay "a" "VJ" 200 "ECO"; oneWay "b" "VJ" 100 "ECO"].

(** A VNA flight with two bags ahead of a VJ flight of the same price, and a
    dearer flight of each airline. *)
Definition tie : list Flight :=
  [oneWay "n1" "VNA" 100 "VFR"; oneWay "j1" "VJ" 120 "ECO";
   oneWay "j2" "VJ" 100 "ECO"; oneWay "n2" "VNA" 300 "VFR"].

(** VJ, VNA with and without two bags, and another airline. *)
Definition mixed : list Flight :=
  [oneWay "n1" "VNA" 100 "VFR"; oneWay "n2" "VNA" 90 "ECO";
   oneWay "j1" "VJ" 120 "ECO"; oneWay "q1" "QH" 80 "VFR"].

(** The events of a search where VietJet returns one direct flight and Vietnam
    Airlines returns nothing, up to the completion of the fan-out. *)
Definition onlyVietJet : list Event :=
  [Search bothAirlines;
   Settle 0 VietJet (Fulfilled [oneWay "a" "VJ" 100 "ECO"]);
   Settle 0 VietnamAirlines (Fulfilled [])].

(** The page once both fetches of [onlyVietJet] have settled. *)
Definition afterOnlyVietJet : World :=
  {| page := {| flights := [oneWay "a" "VJ" 100 "ECO"];
                loading := true;
                error := None;
                searchPerformed := true;
                filters := initialFilters;
                consoleErrors := [] |};
     invocations :=
       [ {| promises := [(VietJet, Some (Fulfilled [oneWay "a" "VJ" 100 "ECO"]));
                         (VietnamAirlines, Some (Fulfilled []))];
            awaiting := true |} ] |}.


(** The page after two searches in a row, both fan-outs pending. *)
Definition twoSearches : World :=
  startSearch bothAirlines (startSearch bothAirlines initialWorld).

(** [p] is the least price among the flights of airline [a] in [l] (and there is one). *)
Definition leastPrice (a : string) (l : list Flight) (p : Z) : Prop :=
  (exists f, In f l /\ airline f = a /\ price f = p) /\
  (forall f, In f l -> airline f = a -> p <= price f).

(** ** Values shared by the admin components *)

(** [array.sort(comparefn)] on an array of any element type, by value: the same
    stable insertion as [sorted]. *)
Fixpoint insertInto {A} (cmp : A -> A -> Z) (x : A) (l : list A) : list A :=
  match l with
  | [] => [x]
  | y :: l' => if cmp x y <=? 0 then x :: y :: l' else y :: insertInto cmp x l'
  end.

Fixpoint stableSort {A} (cmp : A -> A -> Z) (l : list A) : list A :=
  match l with
  | [] => []
  | x :: l' => insertInto cmp x (stableSort cmp l')
  end.

(** [s || d] on a possibly missing string: the empty string is falsy. *)
Definition orElse (s : option string) (d : string) : string :=
  match s with
  | Some v => if (v =? "")%string then d else v
  | None => d
  end.

(** What a Supabase query resolves to: [{ data, error }]. *)
Record QueryResult (A : Type) := mkQueryResult {
  data : option (list A);
  queryError : option string
}.
Arguments data {A} _.
Arguments queryError {A} _.

(** A row of [profiles] as selected ([id, full_name]) and a user of
    [auth.admin.listUsers()] as read ([id], [email]). *)
Record ProfileRow := mkProfileRow {
  profile_id : string;
  profile_full_name : option string
}.

Record AuthUser := mkAuthUser {
  auth_id : string;
  auth_email : option string
}.

(** [profiles?.find(p => p.id === userId)] and [users.find(u => u.id === userId)]. *)
Definition findProfile (profiles : option (list ProfileRow)) (userId : string)
    : option ProfileRow :=
  match profiles with
  | Some ps => List.find (fun p => (profile_id p =? userId)%string) ps
  | None => None
  end.

Definition findUser (users : list AuthUser) (userId : string) : option AuthUser :=
  List.find (fun u => (auth_id u =? userId)%string) users.

(** ** SearchStatistics: fetchStats *)

Module SearchStatistics.

(** A row of [search_logs] as selected. *)
Record SearchLog := mkSearchLog {
  log_user_id : string;
  searched_at : string
}.

Record SearchStats := mkSearchStats {
  user_id : string;
  email : string;
  full_name : option string;
  search_count : Z
}.

(** The state of the component. *)
Record State := mkState {
  stats : list SearchStats;
  loading : bool;
  totalSearches : Z
}.

(** [countMap], a [Record<string, number>]: the keys in the order they were
    first written, which is the order [Object.keys] lists them in (user ids
    are UUIDs, never array indices). *)
Definition CountMap := list (string * Z).

(** [countMap[k]]. *)
Fixpoint get (m : CountMap) (k : string) : option Z :=
  match m with
  | [] => None
  | (k', n) :: rest => if (k' =? k)%string then Some n else get rest k
  end.

(** [countMap[k] = v]: in place for a key already there, else a new last key. *)
Fixpoint set (k : string) (v : Z) (m : CountMap) : CountMap :=
  match m with
  | [] => [(k, v)]
  | (k', n) :: rest =>
      if (k' =? k)%string then (k', v) :: rest else (k', n) :: set k v rest
  end.

(** [n || 0] on a possibly missing number. *)
Definition orZero (n : option Z) : Z :=
  match n with
  | Some v => if v =? 0 then 0 else v
  | None => 0
  end.

(** [countMap[log.user_id] = (countMap[log.user_id] || 0) + 1]. *)
Definition bump (m : CountMap) (log : SearchLog) : CountMap :=
  set (log_user_id log) (orZero (get m (log_user_id log)) + 1) m.

(** [searchLogs?.forEach(...)] from the empty map. *)
Definition countSearches (searchLogs : option (list SearchLog)) : CountMap :=
  match searchLogs with
  | Some logs => fold_left bump logs []
  | None => []
  end.

(** The callback of [userIds.map]; [countMap[userId]] is there for every key
    ([0] stands for the [undefined] that cannot occur). *)
Definition toStats (profiles : option (list ProfileRow)) (users : list AuthUser)
    (countMap : CountMap) (userId : string) : SearchStats :=
  let profile := findProfile profiles userId in
  let user := findUser users userId in
  {| user_id := userId;
     email := orElse (match user with Some u => auth_email u | None => None end) "N/A";
     full_name :=
       match profile with
       | Some p =>
           match profile_full_name p with
           | Some name => if (name =? "")%string then None else Some name
           | None => None
           end
       | None => None
       end;
     search_count :=
       match get countMap userId with
       | Some n => n
       | None => 0
       end |}.

(** [fetchStats], with what the three queries resolve to: the logs query, the
    profiles query ([data] only) and [authData?.users].  The state written is
    the one after [finally]. *)
Definition fetchStats (logsResult : QueryResult SearchLog)
    (profiles : option (list ProfileRow)) (authUsers : option (list AuthUser))
    (st : State) : State :=
  match queryError logsResult with
  | Some _ =>
      {| stats := stats st; loading := false; totalSearches := totalSearches st |}
  | None =>
      let searchLogs := data logsResult in
      let countMap := countSearches searchLogs in
      let total :=
        match searchLogs with
        | Some logs => Z.of_nat (List.length logs)
        | None => 0
        end in
      let userIds := map fst countMap in
      if (List.length userIds =? 0)%nat then
        {| stats := []; loading := false; totalSearches := total |}
      else
        let users := match authUsers with Some us => us | None => [] end in
        let statsData :=
          stableSort (fun a b => search_count b - search_count a)
            (map (toStats profiles users countMap) userIds) in
        {| stats := statsData; loading := false; totalSearches := total |}
  end.

(** Number of logs of one user. *)
Definition searchesOf (userId : string) (logs : list SearchLog) : Z :=
  Z.of_nat (List.length (List.filter (fun l => (log_user_id l =? userId)%string) logs)).

(** Sum of the numbers held by a count map. *)
Definition totalOf (m : CountMap) : Z :=
  fold_right (fun kv acc => snd kv + acc) 0 m.

(** Sum of the counts shown. *)
Definition sumCounts (rows : list SearchStats) : Z :=
  fold_right (fun r acc => search_count r + acc) 0 rows.

End SearchStatistics.

(** ** PendingTickets: fetchHeldTickets and handleDeleteTicket *)

Module PendingTickets.

(** A row of [held_tickets], with the two fields the page adds;
    [flight_details] is kept as the JSON text it holds. *)
Record HeldTicket := mkHeldTicket {
  id : string;
  user_id : string;
  pnr : string;
  flight_details : option string;
  hold_date : string;
  expire_date : option string;
  status : string;
  user_name : option string;
  user_email : option string
}.

(** The state of the page and the toasts it has shown. *)
Record State := mkState {
  tickets : list HeldTicket;
  loading : bool;
  deleteTicketId : option string;
  toasts : list string
}.

(** The callback of [ticketsData?.map]: the ticket with [user_email] and
    [user_name] filled in. *)
Definition enrich (usersData : option (list AuthUser)) (profilesData : option (list ProfileRow))
    (ticket : HeldTicket) : HeldTicket :=
  let user :=
    match usersData with
    | Some users => findUser users (user_id ticket)
    | None => None
    end in
  let profile := findProfile profilesData (user_id ticket) in
  {| id := id ticket;
     user_id := user_id ticket;
     pnr := pnr ticket;
     flight_details := flight_details ticket;
     hold_date := hold_date ticket;
     expire_date := expire_date ticket;
     status := status ticket;
     user_name :=
       Some (orElse (match profile with Some p => profile_full_name p | None => None end)
                    "N/A");
     user_email := match user with Some u => auth_email u | None => None end |}.

(** [fetchHeldTickets], with what the three queries resolve to; a failed
    tickets query is thrown to the [catch], which shows a toast. *)
Definition fetchHeldTickets (ticketsResult : QueryResult HeldTicket)
    (usersData : option (list AuthUser)) (profilesData : option (list ProfileRow))
    (st : State) : State :=
  match queryError ticketsResult with
  | Some _ =>
      {| tickets := tickets st;
         loading := false;
         deleteTicketId := deleteTicketId st;
         toasts := toasts st ++ ["Không thể tải danh sách vé giữ"] |}
  | None =>
      {| tickets :=
           match data ticketsResult with
           | Some ticketsData => map (enrich usersData profilesData) ticketsData
           | None => []
           end;
         loading := false;
         deleteTicketId := deleteTicketId st;
         toasts := toasts st |}
  end.

(** The click on the bin of a ticket: [setDeleteTicketId(ticket.id)]. *)
Definition askDelete (ticketId : string) (st : State) : State :=
  {| tickets := tickets st;
     loading := loading st;
     deleteTicketId := Some ticketId;
     toasts := toasts st |}.

(** [handleDeleteTicket], with the error the delete request resolves to, if
    any: nothing is done without an id ([null] or the empty string). *)
Definition handleDeleteTicket (deleteError : option string) (st : State) : State :=
  match deleteTicketId st with
  | None => st
  | Some toDelete =>
      if (toDelete =? "")%string then st
      else
        match deleteError with
        | Some _ =>
            {| tickets := tickets st;
               loading := loading st;
               deleteTicketId := deleteTicketId st;
               toasts := toasts st ++ ["Không thể xóa vé"] |}
        | None =>
            {| tickets :=
                 List.filter (fun t => negb (id t =? toDelete)%string) (tickets st);
               loading := loading st;
               deleteTicketId := None;
               toasts := toasts st ++ ["Đã xóa vé thành công"] |}
        end
  end.

(** Two tickets that differ at most in the two fields the page adds. *)
Definition sameRow (t t' : HeldTicket) : Prop :=
  id t' = id t /\ user_id t' = user_id t /\ pnr t' = pnr t /\
  flight_details t' = flight_details t /\ hold_date t' = hold_date t /\
  expire_date t' = expire_date t /\ status t' = status t.

End PendingTickets.

(** ** Further notions used by the properties *)

(** A flight passes the three filters of [filters]: its airline is selected (or
    no airline is selected at all), it is direct on every leg it has when
    [directFlightsOnly] is set, and it has two bags when [show2pc] is set. *)
Definition passesFilters (filters : FilterOptions) (f : Flight) : Prop :=
  (airlines filters = [] \/ In (airline f) (airlines filters)) /\
  (directFlightsOnly filters = true ->
     stops (departure f) = 0 /\ forall r, return_ f = Some r -> stops r = 0) /\
  (show2pc filters = true ->
     airline f = "VJ" \/ (airline f = "VNA" /\ baggageType f = "VFR")).

(** The same test as a function: what the first three stages keep. *)
Definition keeps (filters : FilterOptions) (f : Flight) : bool :=
  (negb (0 <? List.length (airlines filters))%nat || includesAirline filters f)
  && (negb (directFlightsOnly filters) || isDirect f)
  && (negb (show2pc filters) || is2pc f).

(** The numeric key the duration sort compares: the digits of the duration
    string read as one number. *)
Definition durationKey (f : Flight) : number :=
  parseInt (stripNonDigits (duration f)).


(** What can happen to the page between two renders, short of the filter
    panel: an event of the search, or a click on the show-more button
    ([setFilters] with the updater of [handleShowMore]). *)
Inductive PageEvent :=
| FromLoop (e : Event)
| ShowMoreClick.

Definition clickShowMore (w : World) : World :=
  {| page := {| flights := flights (page w);
                loading := loading (page w);
                error := error (page w);
                searchPerformed := searchPerformed (page w);
                filters := handleShowMore (filters (page w));
                consoleErrors := consoleErrors (page w) |};
     invocations := invocations w |}.

Definition pageStep (w : World) (e : PageEvent) : option World :=
  match e with
  | FromLoop e => step w e
  | ShowMoreClick => Some (clickShowMore w)
  end.

Fixpoint pageRun (w : World) (es : list PageEvent) : option World :=
  match es with
  | [] => Some w
  | e :: rest =>
      match pageStep w e with
      | Some w' => pageRun w' rest
      | None => None
      end
  end.

(** The event is the start of a search. *)
Definition isSearch (e : PageEvent) : bool :=
  match e with
  | FromLoop (Search _) => true
  | _ => false
  end.

(** The values of the promises fulfilled so far, concatenated in promise order. *)
Fixpoint fulfilledSoFar (ps : list (Source * option Settlement)) : list Flight :=
  match ps with
  | [] => []
  | (_, Some (Fulfilled value)) :: rest => value ++ fulfilledSoFar rest
  | _ :: rest => fulfilledSoFar rest
  end.

(** The flights a settlement brings. *)
Definition batchOf (outcome : Settlement) : list Flight :=
  match outcome with
  | Fulfilled value => value
  | Rejected _ => []
  end.

(** The facts every event keeps: an airline is selected, the sort key is the
    price, [loading] is on only while the latest call waits, and
    [searchPerformed] tells whether a call was made. *)
Definition steady (w : World) : Prop :=
  airlines (filters (page w)) <> [] /\
  sortBy (filters (page w)) = "price" /\
  (loading (page w) = true ->
     exists invs inv, invocations w = invs ++ [inv] /\ awaiting inv = true) /\
  (searchPerformed (page w) = true <-> invocations w <> []).

(** Every duration of [fs] has a digit and its digits read as a number below
    2^53: then [parseInt] returns that number exactly and the duration
    comparator is consistent. *)
Definition durationsExact (fs : list Flight) : Prop :=
  forall f, In f fs -> exists z, durationKey f = Num z /\ z < 9007199254740992.


(** The value of the duration key, for a duration that has a digit. *)
Definition durationValue (f : Flight) : Z :=
  match durationKey f with
  | Num z => z
  | NaN => 0
  end.

(** *** More concrete data *)

(** Sort by duration, no reduction. *)
Definition byDuration : FilterOptions :=
  {| airlines := ["VJ"; "VNA"]; showCheapestOnly := false; directFlightsOnly := true;
     show2pc := false; sortBy := "duration" |}.

(** A one-way direct VJ flight lasting [d]. *)
Definition lasting (i d : string) : Flight :=
  {| id := i; airline := "VJ"; price := 100; departure := directLeg; return_ := None;
     duration := d; baggageType := "ECO"; availableSeats := 9 |}.

(** A short flight listed after a long one whose digits read as a smaller number. *)
Definition twoDurations : list Flight :=
  [lasting "short" "2h 10m"; lasting "long" "10h 5m"].

(** Sort by price, [showCheapestOnly] off. *)
Definition relaxedByPrice : FilterOptions :=
  {| airlines := ["VJ"; "VNA"]; showCheapestOnly := false; directFlightsOnly := true;
     show2pc := true; sortBy := "price" |}.

(** Two prices, each twice, the dearer first. *)
Definition fourPrices : list Flight :=
  [oneWay "a" "VJ" 200 "ECO"; oneWay "b" "VJ" 100 "ECO";
   oneWay "c" "VNA" 200 "VFR"; oneWay "d" "VJ" 100 "ECO"].

(** A one-way direct VJ flight leaving at [t]. *)
Definition leaving (i t : string) : Flight :=
  {| id := i; airline := "VJ"; price := 100;
     departure := {| airport := "HAN"; date := "2025-03-01"; time := t; stops := 0 |};
     return_ := None; duration := "2h 10m"; baggageType := "ECO"; availableSeats := 9 |}.

(** An evening flight listed before a morning one. *)
Definition twoDepartures : list Flight :=
  [leaving "late" "21:15"; leaving "early" "06:40"].

(** A round trip that is direct on the way out only. *)
Definition returnWithStop : Flight :=
  {| id := "r1"; airline := "VJ"; price := 150; departure := directLeg;
     return_ := Some oneStopLeg; duration := "2h 10m"; baggageType := "ECO";
     availableSeats := 4 |}.

(** A page showing only that round trip, with the filters of a fresh search. *)
Definition deadEnd : Page :=
  {| flights := [returnWithStop]; loading := false; error := None;
     searchPerformed := true; filters := initialFilters; consoleErrors := [] |}.


(** A fetch of the first of two searches settles, then a click on show-more. *)
Definition lateBatchThenClick : list PageEvent :=
  [FromLoop (Settle 0 VietJet (Fulfilled [oneWay "a" "VJ" 100 "ECO"])); ShowMoreClick].

(** A whole search, then a click on show-more. *)
Definition searchThenClick : list PageEvent :=
  map FromLoop (onlyVietJet ++ [AllSettled 0%nat]) ++ [ShowMoreClick].

(** Vietnam Airlines answers before VietJet. *)
Definition vnaFirst : list Event :=
  [Settle 0 VietnamAirlines (Fulfilled [oneWay "n1" "VNA" 100 "VFR"]);
   Settle 0 VietJet (Fulfilled [oneWay "j1" "VJ" 120 "ECO"])].

Definition emptyStats : SearchStatistics.State :=
  {| SearchStatistics.stats := []; SearchStatistics.loading := true;
     SearchStatistics.totalSearches := 0 |}.

(** Four users with one log each: one not listed, one with a name and an
    e-mail, one listed with an empty e-mail and an empty name, one listed with
    neither. *)
Definition fallbackLogs : list SearchStatistics.SearchLog :=
  [ {| SearchStatistics.log_user_id := "u1"; SearchStatistics.searched_at := "2025-03-01" |};
    {| SearchStatistics.log_user_id := "u2"; SearchStatistics.searched_at := "2025-03-02" |};
    {| SearchStatistics.log_user_id := "u3"; SearchStatistics.searched_at := "2025-03-03" |};
    {| SearchStatistics.log_user_id := "u4"; SearchStatistics.searched_at := "2025-03-04" |} ].

Definition fallbackProfiles : option (list ProfileRow) :=
  Some [ {| profile_id := "u2"; profile_full_name := Some "An" |};
         {| profile_id := "u3"; profile_full_name := Some "" |};
         {| profile_id := "u4"; profile_full_name := None |} ].

Definition fallbackUsers : option (list AuthUser) :=
  Some [ {| auth_id := "u2"; auth_email := Some "an@example.com" |};
         {| auth_id := "u3"; auth_email := Some "" |};
         {| auth_id := "u4"; auth_email := None |} ].

(** A row of the statistics table. *)
Definition statsRow (u e : string) (n : option string) (c : Z) : SearchStatistics.SearchStats :=
  {| SearchStatistics.user_id := u; SearchStatistics.email := e;
     SearchStatistics.full_name := n; SearchStatistics.search_count := c |}.

(** A ticket of user [u], with the two added fields as given. *)
Definition heldTicket (i u : string) (name email : option string) : PendingTickets.HeldTicket :=
  {| PendingTickets.id := i; PendingTickets.user_id := u; PendingTickets.pnr := "ABC123";
     PendingTickets.flight_details := None; PendingTickets.hold_date := "2025-03-01";
     PendingTickets.expire_date := None; PendingTickets.status := "holding";
     PendingTickets.user_name := name; PendingTickets.user_email := email |}.

(** The rows of the query: one ticket for each of the four users. *)
Definition fourTickets : list PendingTickets.HeldTicket :=
  [heldTicket "t1" "u1" None None; heldTicket "t2" "u2" None None;
   heldTicket "t3" "u3" None None; heldTicket "t4" "u4" None None].

Definition noTickets : PendingTickets.State :=
  {| PendingTickets.tickets := []; PendingTickets.loading := true;
     PendingTickets.deleteTicketId := None; PendingTickets.toasts := [] |}.

(** * Properties *)

(** ** The sort *)

Section SortFacts.

Variable cmp : Flight -> Flight -> Z.

Lemma insertSorted_perm x l : Permutation (insertSorted cmp x l) (x :: l).
Proof.
  induction l as [|y l IH]; simpl; [reflexivity|].
  destruct (cmp x y <=? 0); [reflexivity|].
  rewrite IH. apply perm_swap.
Qed.

Lemma sorted_perm l : Permutation (sorted cmp l) l.
Proof.
  induction l as [|x l IH]; simpl; [reflexivity|].
  rewrite insertSorted_perm. now constructor.
Qed.

Lemma sorted_In x l : In x (sorted cmp l) <-> In x l.
Proof.
  split; apply Permutation_in; [|symmetry]; apply sorted_perm.
Qed.

Lemma insertSorted_ordered_head x l :
  ordered cmp (x :: l) -> insertSorted cmp x l = x :: l.
Proof.
  inversion 1; subst; simpl; [reflexivity|].
  destruct (Z.leb_spec (cmp x y) 0); [reflexivity|lia].
Qed.

(** Sorting a sequence that is already in order changes nothing. *)
Lemma sorted_ordered l : ordered cmp l -> sorted cmp l = l.
Proof.
  induction l as [|x l IH]; intros Hl; simpl; [reflexivity|].
  assert (ordered cmp l) by (inversion Hl; subst; [constructor|assumption]).
  rewrite IH by assumption. now apply insertSorted_ordered_head.
Qed.

Hypothesis cmp_antisym : forall a b, 0 < cmp a b -> cmp b a <= 0.




End SortFacts.

(** A comparator that answers zero everywhere leaves the order as it is. *)
Lemma sorted_const_zero (cmp : Flight -> Flight -> Z) l :
  (forall a b, cmp a b = 0) -> sorted cmp l = l.
Proof.
  intros H. apply sorted_ordered.
  induction l as [|x [|y l] IH]; constructor.
  - rewrite H. lia.
  - assumption.
Qed.

(** ** Value of the pipeline *)

Lemma preReduction_value cfg fs :
  preReduction cfg fs =
    let a := if (0 <? List.length (airlines cfg))%nat
             then List.filter (includesAirline cfg) fs else fs in
    let b := if directFlightsOnly cfg then List.filter isDirect a else a in
    if show2pc cfg then List.filter is2pc b else b.
Proof.
  unfold preReduction, contents, filterByAirlines, filterDirect, filter2pc.
  destruct (0 <? List.length (airlines cfg))%nat, (directFlightsOnly cfg), (show2pc cfg);
    reflexivity.
Qed.

Section PipelineFacts.

Variable localeCompare : string -> string -> Z.

Local Abbreviation compareBy cfg := (sortCompare (compareFlights localeCompare cfg)).

Lemma evaluate_value cfg fs :
  evaluate localeCompare cfg fs =
    sorted (compareBy cfg)
      (if showCheapestOnly cfg
       then nonNull [reduce1 cheaper (List.filter isVJ (preReduction cfg fs));
                     reduce1 cheaper (List.filter isVNA (preReduction cfg fs))]
       else preReduction cfg fs).
Proof.
  rewrite preReduction_value.
  unfold evaluate, contents, filterAndSortFlights, filterByAirlines, filterDirect,
    filter2pc, filterCheapest.
  destruct (0 <? List.length (airlines cfg))%nat, (directFlightsOnly cfg), (show2pc cfg),
    (showCheapestOnly cfg); cbn.
  all: try reflexivity.
  all: unfold bind, Array_filter, Array_length, Array_reduce, Array_read, Array_new,
         Array_sort, ret; cbn.
  all: match goal with
       | |- context [List.filter isVJ ?l] =>
           destruct (List.filter isVJ l), (List.filter isVNA l); reflexivity
       end.
Qed.

(** *** The predicates of the stages *)

Lemma String_eqb_true (a b : string) : (a =? b)%string = true <-> a = b.
Proof. apply String.eqb_eq. Qed.

Lemma is2pc_spec f :
  is2pc f = true <->
  airline f = "VJ" \/ (airline f = "VNA" /\ baggageType f = "VFR").
Proof.
  unfold is2pc.
  rewrite orb_true_iff, andb_true_iff, !String_eqb_true. reflexivity.
Qed.

Lemma isVJ_spec f : isVJ f = true <-> airline f = "VJ".
Proof. apply String_eqb_true. Qed.

Lemma isVNA_spec f : isVNA f = true <-> airline f = "VNA".
Proof. apply String_eqb_true. Qed.

Lemma isVJ_not_VNA f : isVJ f = true -> isVNA f = false.
Proof.
  unfold isVJ, isVNA. rewrite String_eqb_true. intros ->. reflexivity.
Qed.


Lemma filter_all_true (p : Flight -> bool) l :
  (forall f, In f l -> p f = true) -> List.filter p l = l.
Proof.
  intros H. apply forallb_filter_id, forallb_forall. exact H.
Qed.

(** A split of [filter p l] around [g] comes from a split of [l] around [g]. *)
Lemma filter_split (p : Flight -> bool) l : forall m1 g m2,
  List.filter p l = m1 ++ g :: m2 ->
  exists l1 l2, l = l1 ++ g :: l2 /\ List.filter p l1 = m1 /\ List.filter p l2 = m2.
Proof.
  induction l as [|x l IH]; intros m1 g m2 H; simpl in H.
  - destruct m1; discriminate.
  - destruct (p x) eqn:Hx.
    + destruct m1 as [|y m1]; simpl in H; injection H as -> H.
      * exists [], l. simpl. auto.
      * destruct (IH _ _ _ H) as (l1 & l2 & -> & <- & <-).
        exists (y :: l1), l2. simpl. rewrite Hx. auto.
    + destruct (IH _ _ _ H) as (l1 & l2 & -> & <- & <-).
      exists (x :: l1), l2. simpl. rewrite Hx. auto.
Qed.

(** *** The reduction *)

(** The fold of [cheaper] ends on the last of the flights of least price. *)
Lemma fold_cheaper_split rest : forall l1 mid x,
  (forall f, In f l1 -> price x <= price f) ->
  (forall f, In f mid -> price x < price f) ->
  exists k1 k2,
    l1 ++ x :: mid ++ rest = k1 ++ fold_left cheaper rest x :: k2 /\
    (forall f, In f k1 -> price (fold_left cheaper rest x) <= price f) /\
    (forall f, In f k2 -> price (fold_left cheaper rest x) < price f).
Proof.
  induction rest as [|y rest IH]; intros l1 mid x H1 H2; simpl.
  - exists l1, mid. rewrite app_nil_r. auto.
  - unfold cheaper at 2 4 6. destruct (Z.ltb_spec (price x) (price y)).
    + destruct (IH l1 (mid ++ [y]) x) as (k1 & k2 & E & K1 & K2); auto.
      { intros f [Hf|Hf]%in_app_or; [auto|]. destruct Hf as [<-|[]]. assumption. }
      exists k1, k2. rewrite <- E, <- app_assoc. auto.
    + destruct (IH (l1 ++ x :: mid) [] y) as (k1 & k2 & E & K1 & K2).
      { intros f [Hf|[<-|Hf]]%in_app_or; [specialize (H1 _ Hf)| |specialize (H2 _ Hf)]; lia. }
      { intros f []. }
      exists k1, k2. rewrite <- E, <- app_assoc. auto.
Qed.

Lemma reduce1_cheaper_split l g :
  reduce1 cheaper l = Some g ->
  exists k1 k2, l = k1 ++ g :: k2 /\
    (forall f, In f k1 -> price g <= price f) /\
    (forall f, In f k2 -> price g < price f).
Proof.
  destruct l as [|x rest]; simpl; [discriminate|]. intros [= <-].
  destruct (fold_cheaper_split rest [] [] x) as (k1 & k2 & E & K1 & K2);
    try (intros f []).
  exists k1, k2. auto.
Qed.

Lemma reduce1_cheaper_In l g : reduce1 cheaper l = Some g -> In g l.
Proof.
  intros (k1 & k2 & -> & _)%reduce1_cheaper_split. apply in_elt.
Qed.

Lemma reduce1_nonempty l : l <> [] -> exists g, reduce1 cheaper l = Some g.
Proof. destruct l; [congruence|]. simpl. eauto. Qed.

(** What the cheapest-only block keeps for one airline, in terms of the array
    [pre] it received. *)
Lemma cheapest_of_airline (p : Flight -> bool) pre g :
  reduce1 cheaper (List.filter p pre) = Some g ->
  p g = true /\
  exists l1 l2, pre = l1 ++ g :: l2 /\
    (forall f, In f l1 -> p f = true -> price g <= price f) /\
    (forall f, In f l2 -> p f = true -> price g < price f).
Proof.
  intros H. split.
  - apply reduce1_cheaper_In, filter_In in H. tauto.
  - apply reduce1_cheaper_split in H as (k1 & k2 & E & K1 & K2).
    apply filter_split in E as (l1 & l2 & -> & <- & <-).
    exists l1, l2. split; [reflexivity|].
    split; intros f Hf Hp; [apply K1|apply K2]; apply filter_In; auto.
Qed.

Lemma kept_of_airline (p : Flight -> bool) a pre g :
  (forall f, p f = true <-> airline f = a) ->
  reduce1 cheaper (List.filter p pre) = Some g ->
  airline g = a /\
  (forall f, In f pre -> airline f = airline g -> price g <= price f) /\
  exists l1 l2, pre = l1 ++ g :: l2 /\
    forall f, In f l2 -> airline f = airline g -> price g < price f.
Proof.
  intros Hp (Hg & l1 & l2 & -> & H1 & H2)%cheapest_of_airline.
  apply Hp in Hg. rewrite Hg. split; [reflexivity|]. split.
  - intros f [Hf|[<-|Hf]]%in_app_or Ha; [apply H1| lia |apply Z.lt_le_incl, H2];
      auto; now apply Hp.
  - exists l1, l2. split; [reflexivity|]. intros f Hf Ha. apply H2; auto. now apply Hp.
Qed.

Lemma sorted_pair cmp v w :
  sorted cmp [v; w] = if cmp v w <=? 0 then [v; w] else [w; v].
Proof. reflexivity. Qed.

(** With [showCheapestOnly] set: at most one flight of each airline, and what a
    returned flight is in the array the cheapest-only block received. *)
Lemma cheapest_only_sound cfg fs :
  showCheapestOnly cfg = true ->
  (forall a,
     (List.length (List.filter (fun f => (airline f =? a)%string)
        (evaluate localeCompare cfg fs)) <= 1)%nat) /\
  (forall g, In g (evaluate localeCompare cfg fs) ->
     (forall f, In f (preReduction cfg fs) -> airline f = airline g ->
        price g <= price f) /\
     exists l1 l2, preReduction cfg fs = l1 ++ g :: l2 /\
       forall f, In f l2 -> airline f = airline g -> price g < price f).
Proof.
  intros Hc. rewrite evaluate_value, Hc.
  destruct (reduce1 cheaper (List.filter isVJ (preReduction cfg fs))) as [v|] eqn:Ev;
  destruct (reduce1 cheaper (List.filter isVNA (preReduction cfg fs))) as [w|] eqn:Ew.
  all: try (apply (kept_of_airline isVJ "VJ") in Ev as (Av & Ev); [|exact isVJ_spec]).
  all: try (apply (kept_of_airline isVNA "VNA") in Ew as (Aw & Ew); [|exact isVNA_spec]).
  all: split.
  all: try (intros g Hg; apply sorted_In in Hg; simpl in Hg;
            repeat (destruct Hg as [<-|Hg]; [assumption|]); contradiction).
  all: intros a; cbn [nonNull omap list_omap]; try rewrite sorted_pair;
       try destruct (_ <=? 0); cbn [sorted insertSorted List.filter].
  all: try rewrite Av; try rewrite Aw.
  all: repeat match goal with
       | |- context [(?x =? ?y)%string] => destruct (String.eqb_spec x y)
       end; simpl; try lia.
  all: congruence.
Qed.

(** Two places of one sequence that both hold the last of the cheapest flights
    of an airline hold the same flight. *)
Lemma last_least_unique l1 g l2 k1 v k2 :
  l1 ++ g :: l2 = k1 ++ v :: k2 ->
  airline g = airline v ->
  price g = price v ->
  (forall f, In f l2 -> airline f = airline g -> price g < price f) ->
  (forall f, In f k2 -> airline f = airline v -> price v < price f) ->
  g = v.
Proof.
  intros E Ha Hp Hg Hv.
  apply app_eq_app in E as [l [[-> E]|[-> E]]]; destruct l as [|x l]; cbn in E.
  - now injection E.
  - injection E as Ex Ek. subst x k2.
    assert (price v < price g) by (apply Hv; [apply in_elt|congruence]). lia.
  - now injection E.
  - injection E as Ex Ek. subst x l2.
    assert (price g < price v) by (apply Hg; [apply in_elt|congruence]). lia.
Qed.

(** The flight the reduction keeps for one airline is the one that is both
    cheapest and last among the cheapest in the array it received. *)
Lemma kept_iff (p : Flight -> bool) a pre g :
  (forall f, p f = true <-> airline f = a) ->
  reduce1 cheaper (List.filter p pre) = Some g <->
  airline g = a /\
  (forall f, In f pre -> airline f = airline g -> price g <= price f) /\
  exists l1 l2, pre = l1 ++ g :: l2 /\
    forall f, In f l2 -> airline f = airline g -> price g < price f.
Proof.
  intros Hp. split; [now apply kept_of_airline|].
  intros (Ha & Hle & l1 & l2 & E & Hlt).
  assert (Hin : In g pre) by (rewrite E; apply in_elt).
  destruct (reduce1_nonempty (List.filter p pre)) as [v Ev].
  { intros En. assert (H : In g (List.filter p pre))
      by (apply filter_In; split; [assumption|now apply Hp]).
    rewrite En in H. destruct H. }
  rewrite Ev. f_equal.
  pose proof (reduce1_cheaper_In _ _ Ev) as [Iv _]%filter_In.
  apply (kept_of_airline p a) in Ev as (Av & Vle & k1 & k2 & E' & Vlt); [|assumption].
  symmetry. apply (last_least_unique l1 g l2 k1 v k2); try assumption.
  - congruence.
  - congruence.
  - apply Z.le_antisymm; [apply Hle|apply Vle]; congruence.
Qed.

Lemma In_nonNull_pair (a b : option Flight) g :
  In g (nonNull [a; b]) <-> a = Some g \/ b = Some g.
Proof.
  destruct a as [x|], b as [y|]; cbn; intuition congruence.
Qed.

(** C1, amended: with [showCheapestOnly] set, the returned sequence holds at most
    one flight of each airline, and a flight is returned exactly when it is a
    VJ or VNA flight that costs no more than any flight of its airline in the
    array the cheapest-only block received and is the last of the flights of
    that least price there (every later flight of the airline costs strictly
    more): the last of the cheapest is kept, not the first. *)
Theorem cheapest_only_keeps_last_minimum cfg fs :
  showCheapestOnly cfg = true ->
  (forall a,
     (List.length (List.filter (fun f => (airline f =? a)%string)
        (evaluate localeCompare cfg fs)) <= 1)%nat) /\
  (forall g, In g (evaluate localeCompare cfg fs) <->
     (airline g = "VJ" \/ airline g = "VNA") /\
     (forall f, In f (preReduction cfg fs) -> airline f = airline g ->
        price g <= price f) /\
     exists l1 l2, preReduction cfg fs = l1 ++ g :: l2 /\
       forall f, In f l2 -> airline f = airline g -> price g < price f).
Proof.
  intros Hc. split; [exact (proj1 (cheapest_only_sound cfg fs Hc))|].
  intros g. rewrite evaluate_value, Hc, sorted_In, In_nonNull_pair.
  rewrite (kept_iff isVJ "VJ" _ g isVJ_spec), (kept_iff isVNA "VNA" _ g isVNA_spec).
  tauto.
Qed.

(** C10: with [showCheapestOnly] set and the sort by price, when the least VJ
    price and the least VNA price among the flights that reach the cheapest-only
    block are equal, the result is the kept VJ flight followed by the kept VNA
    flight, whatever the order of the input. *)
Theorem equal_price_VJ_before_VNA cfg fs p :
  showCheapestOnly cfg = true ->
  sortBy cfg = "price" ->
  leastPrice "VJ" (preReduction cfg fs) p ->
  leastPrice "VNA" (preReduction cfg fs) p ->
  exists v w,
    evaluate localeCompare cfg fs = [v; w] /\
    airline v = "VJ" /\ airline w = "VNA" /\ price v = p /\ price w = p.
Proof.
  intros Hc Hs [(f1 & In1 & A1 & P1) Min1] [(f2 & In2 & A2 & P2) Min2].
  rewrite evaluate_value, Hc.
  destruct (reduce1_nonempty (List.filter isVJ (preReduction cfg fs))) as [v Ev].
  { intros E. assert (H : In f1 (List.filter isVJ (preReduction cfg fs)))
      by (apply filter_In; split; [assumption|now apply isVJ_spec]).
    rewrite E in H. destruct H. }
  destruct (reduce1_nonempty (List.filter isVNA (preReduction cfg fs))) as [w Ew].
  { intros E. assert (H : In f2 (List.filter isVNA (preReduction cfg fs)))
      by (apply filter_In; split; [assumption|now apply isVNA_spec]).
    rewrite E in H. destruct H. }
  rewrite Ev, Ew.
  pose proof (reduce1_cheaper_In _ _ Ev) as [Iv _]%filter_In.
  pose proof (reduce1_cheaper_In _ _ Ew) as [Iw _]%filter_In.
  apply (kept_of_airline isVJ "VJ") in Ev as (Av & Lv & _); [|exact isVJ_spec].
  apply (kept_of_airline isVNA "VNA") in Ew as (Aw & Lw & _); [|exact isVNA_spec].
  assert (price v = p).
  { apply Z.le_antisymm; [rewrite <- P1; apply Lv; congruence | now apply Min1]. }
  assert (price w = p).
  { apply Z.le_antisymm; [rewrite <- P2; apply Lw; congruence | now apply Min2]. }
  exists v, w. repeat split; try assumption.
  cbn [nonNull omap list_omap]. rewrite sorted_pair.
  unfold sortCompare, compareFlights. rewrite Hs. cbn.
  destruct (Z.leb_spec (price v - price w) 0); [reflexivity|lia].
Qed.

(** C2: with [show2pc] set, the 2pc stage returns, in order, the flights of its
    input that are VJ, or VNA with baggage type VFR; no other flight is kept and
    none of these is dropped. *)
Theorem two_bag_stage_keeps cfg fs :
  show2pc cfg = true ->
  contents (filter2pc cfg) fs = List.filter is2pc fs /\
  forall f,
    In f (contents (filter2pc cfg) fs) <->
    In f fs /\ (airline f = "VJ" \/ (airline f = "VNA" /\ baggageType f = "VFR")).
Proof.
  intros H2.
  assert (E : contents (filter2pc cfg) fs = List.filter is2pc fs)
    by (unfold contents, filter2pc; rewrite H2; reflexivity).
  split; [exact E|]. intros f. rewrite E, filter_In, is2pc_spec. reflexivity.
Qed.

(** C9, amended: a sort key outside price, duration and departure raises
    nothing; the sort then leaves the sequence in the order the earlier stages
    produced. *)
Theorem unknown_sort_key_keeps_order cfg fs :
  sortBy cfg <> "price" -> sortBy cfg <> "duration" -> sortBy cfg <> "departure" ->
  evaluate localeCompare cfg fs =
    if showCheapestOnly cfg
    then nonNull [reduce1 cheaper (List.filter isVJ (preReduction cfg fs));
                  reduce1 cheaper (List.filter isVNA (preReduction cfg fs))]
    else preReduction cfg fs.
Proof.
  intros H1 H2 H3. rewrite evaluate_value. apply sorted_const_zero.
  intros a b. unfold sortCompare, compareFlights.
  destruct (String.eqb_spec (sortBy cfg) "price"); [contradiction|].
  destruct (String.eqb_spec (sortBy cfg) "duration"); [contradiction|].
  destruct (String.eqb_spec (sortBy cfg) "departure"); [contradiction|].
  reflexivity.
Qed.

(** *** The pipeline in an arbitrary store *)

Lemma Array_filter_run p a (h : heap) xs :
  h !! a = Some xs ->
  Array_filter p a h = (List.length h, h ++ [List.filter p xs]).
Proof.
  unfold Array_filter, bind, Array_read, Array_new. intros ->. reflexivity.
Qed.

Lemma bind_run {A B} (m : M A) (k : A -> M B) h a h' :
  m h = (a, h') -> bind m k h = k a h'.
Proof. unfold bind. intros ->. reflexivity. Qed.

Lemma Array_length_run a (h : heap) xs :
  h !! a = Some xs -> Array_length a h = (List.length xs, h).
Proof. unfold Array_length, bind, Array_read, ret. intros ->. reflexivity. Qed.

(** The guarded reduction is [reduce1]: the guard covers the empty array. *)
Lemma guarded_reduce_run f a (h : heap) xs :
  h !! a = Some xs ->
  (if (0 <? List.length xs)%nat then Array_reduce f a else ret None) h =
    (reduce1 f xs, h).
Proof.
  intros Ha. destruct xs; [reflexivity|].
  cbn [List.length Nat.ltb Nat.leb].
  unfold Array_reduce, bind, Array_read, ret. rewrite Ha. reflexivity.
Qed.

Lemma Array_sort_run comparefn a (h : heap) xs :
  h !! a = Some xs ->
  exists h', Array_sort comparefn a h = (a, h') /\
             h' !! a = Some (sorted (sortCompare comparefn) xs).
Proof.
  intros Ha. unfold Array_sort. eexists. split; [reflexivity|].
  unfold heap, loc in *. rewrite list_lookup_alter_eq, Ha. reflexivity.
Qed.

Lemma guarded_filter_computes (b : bool) p :
  computes (fun a => if b then Array_filter p a else ret a)
           (fun xs => if b then List.filter p xs else xs).
Proof.
  intros h a xs Ha. destruct b.
  - exists (List.length h), [List.filter p xs].
    rewrite (Array_filter_run _ _ _ _ Ha). split; [reflexivity|].
    now apply list_lookup_middle.
  - exists a, []. rewrite app_nil_r. auto.
Qed.

Lemma computes_bind s1 s2 f1 f2 :
  computes s1 f1 -> computes s2 f2 ->
  computes (fun a => let* b := s1 a in s2 b) (fun xs => f2 (f1 xs)).
Proof.
  intros H1 H2 h a xs Ha. unfold bind.
  destruct (H1 h a xs Ha) as (b & ext1 & -> & Hb).
  destruct (H2 _ b _ Hb) as (c & ext2 & -> & Hc).
  exists c, (ext1 ++ ext2). rewrite app_assoc. auto.
Qed.

Lemma filterCheapest_computes cfg :
  computes (filterCheapest cfg)
    (fun pre =>
       if showCheapestOnly cfg
       then nonNull [reduce1 cheaper (List.filter isVJ pre);
                     reduce1 cheaper (List.filter isVNA pre)]
       else pre).
Proof.
  intros h a xs Ha. unfold filterCheapest. destruct (showCheapestOnly cfg).
  - set (vj := List.filter isVJ xs). set (vna := List.filter isVNA xs).
    set (kept := nonNull [reduce1 cheaper vj; reduce1 cheaper vna]).
    exists (S (S (List.length h))), [vj; vna; kept].
    assert (H1 : (h ++ [vj]) !! a = Some xs) by now apply lookup_app_l_Some.
    assert (H2 : ((h ++ [vj]) ++ [vna]) !! List.length h = Some vj).
    { apply lookup_app_l_Some. now apply list_lookup_middle. }
    assert (H3 : ((h ++ [vj]) ++ [vna]) !! List.length (h ++ [vj]) = Some vna)
      by now apply list_lookup_middle.
    assert (L1 : List.length (h ++ [vj]) = S (List.length h))
      by (rewrite length_app; simpl; lia).
    assert (L2 : List.length ((h ++ [vj]) ++ [vna]) = S (S (List.length h)))
      by (rewrite length_app, L1; simpl; lia).
    split.
    + rewrite (bind_run _ _ _ _ _ (Array_filter_run _ _ _ _ Ha)).
      rewrite (bind_run _ _ _ _ _ (Array_filter_run _ _ _ _ H1)).
      rewrite (bind_run _ _ _ _ _ (Array_length_run _ _ _ H2)).
      rewrite (bind_run _ _ _ _ _ (guarded_reduce_run _ _ _ _ H2)).
      rewrite (bind_run _ _ _ _ _ (Array_length_run _ _ _ H3)).
      rewrite (bind_run _ _ _ _ _ (guarded_reduce_run _ _ _ _ H3)).
      unfold Array_new. rewrite L2, <- !app_assoc. reflexivity.
    + change [vj; vna; kept] with ([vj; vna] ++ [kept]). rewrite app_assoc.
      apply list_lookup_middle. rewrite length_app. simpl. lia.
  - exists a, []. rewrite app_nil_r. auto.
Qed.

(** In whatever store the function is called, the array it returns holds the
    sequence [evaluate] gives for the contents of the array passed in. *)
Lemma filterAndSortFlights_run cfg (h : heap) a fs :
  h !! a = Some fs ->
  exists r h',
    filterAndSortFlights localeCompare cfg a h = (r, h') /\
    h' !! r = Some (evaluate localeCompare cfg fs).
Proof.
  intros Ha. rewrite evaluate_value, preReduction_value. cbv zeta.
  pose proof (computes_bind _ _ _ _
    (computes_bind _ _ _ _
      (computes_bind _ _ _ _
        (guarded_filter_computes (0 <? List.length (airlines cfg))%nat (includesAirline cfg))
        (guarded_filter_computes (directFlightsOnly cfg) isDirect))
      (guarded_filter_computes (show2pc cfg) is2pc))
    (filterCheapest_computes cfg)) as H.
  destruct (H h a fs Ha) as (r & ext & E & Hr).
  destruct (Array_sort_run (compareFlights localeCompare cfg) _ _ _ Hr) as (h' & Es & Hs).
  exists r, h'. split; [|exact Hs].
  unfold filterAndSortFlights, filterByAirlines, filterDirect, filter2pc.
  unfold bind in *.
  destruct ((if (0 <? List.length (airlines cfg))%nat
             then Array_filter (includesAirline cfg) a else ret a) h) as [r1 h1].
  destruct ((if directFlightsOnly cfg then Array_filter isDirect r1 else ret r1) h1)
    as [r2 h2].
  destruct ((if show2pc cfg then Array_filter is2pc r2 else ret r2) h2) as [r3 h3].
  rewrite E. exact Es.
Qed.

(** *** The input array *)

(** The array passed in is left as it was when some stage copies; when no
    stage runs, [filtered] is still the array passed in and the sort reorders
    it. *)
Lemma inputAfter_value cfg fs :
  inputAfter (filterAndSortFlights localeCompare cfg) fs =
    if (0 <? List.length (airlines cfg))%nat || directFlightsOnly cfg
       || show2pc cfg || showCheapestOnly cfg
    then fs
    else sorted (compareBy cfg) fs.
Proof.
  unfold inputAfter, filterAndSortFlights, filterByAirlines, filterDirect,
    filter2pc, filterCheapest.
  destruct (0 <? List.length (airlines cfg))%nat, (directFlightsOnly cfg), (show2pc cfg),
    (showCheapestOnly cfg); cbn.
  all: try reflexivity.
  all: unfold bind, Array_filter, Array_length, Array_reduce, Array_read, Array_new,
         Array_sort, ret; cbn.
  all: match goal with
       | |- context [List.filter isVJ ?l] =>
           destruct (List.filter isVJ l), (List.filter isVNA l); reflexivity
       end.
Qed.

(** *** Running the pipeline on its own result *)

Lemma evaluate_subset cfg fs f :
  In f (evaluate localeCompare cfg fs) -> In f (preReduction cfg fs).
Proof.
  rewrite evaluate_value. intros Hf%sorted_In.
  destruct (showCheapestOnly cfg); [|assumption].
  destruct (reduce1 cheaper (List.filter isVJ (preReduction cfg fs))) as [v|] eqn:Ev;
  destruct (reduce1 cheaper (List.filter isVNA (preReduction cfg fs))) as [w|] eqn:Ew;
    simpl in Hf.
  all: try apply reduce1_cheaper_In, filter_In in Ev as [Ev _].
  all: try apply reduce1_cheaper_In, filter_In in Ew as [Ew _].
  all: repeat (destruct Hf as [<-|Hf]; [assumption|]); contradiction.
Qed.


Hypothesis localeCompare_antisym :
  forall a b, 0 < localeCompare a b -> localeCompare b a <= 0.



End PipelineFacts.


(** ** The reveal ladder *)

(** C4, amended: from a configuration with [showCheapestOnly] and
    [directFlightsOnly] set, the first call clears only [showCheapestOnly], the
    second only [directFlightsOnly], the third clears [show2pc] (the fallback
    branch), and every later call changes nothing; when [show2pc] is already
    cleared, every call after the second changes nothing. *)
Theorem show_more_ladder cfg :
  showCheapestOnly cfg = true ->
  directFlightsOnly cfg = true ->
  showMoreTimes 1 cfg =
    {| airlines := airlines cfg; showCheapestOnly := false;
       directFlightsOnly := true; show2pc := show2pc cfg; sortBy := sortBy cfg |} /\
  showMoreTimes 2 cfg =
    {| airlines := airlines cfg; showCheapestOnly := false;
       directFlightsOnly := false; show2pc := show2pc cfg; sortBy := sortBy cfg |} /\
  showMoreTimes 3 cfg =
    {| airlines := airlines cfg; showCheapestOnly := false;
       directFlightsOnly := false; show2pc := false; sortBy := sortBy cfg |} /\
  (forall n, (3 <= n)%nat -> showMoreTimes n cfg = showMoreTimes 3 cfg) /\
  (show2pc cfg = false ->
   forall n, (2 <= n)%nat -> showMoreTimes n cfg = showMoreTimes 2 cfg).
Proof.
  intros Hc Hd.
  assert (E1 : showMoreTimes 1 cfg =
    {| airlines := airlines cfg; showCheapestOnly := false;
       directFlightsOnly := true; show2pc := show2pc cfg; sortBy := sortBy cfg |}).
  { simpl. unfold handleShowMore. rewrite Hc, Hd. reflexivity. }
  assert (E2 : showMoreTimes 2 cfg =
    {| airlines := airlines cfg; showCheapestOnly := false;
       directFlightsOnly := false; show2pc := show2pc cfg; sortBy := sortBy cfg |}).
  { change (showMoreTimes 2 cfg) with (handleShowMore (showMoreTimes 1 cfg)).
    rewrite E1. reflexivity. }
  assert (E3 : showMoreTimes 3 cfg =
    {| airlines := airlines cfg; showCheapestOnly := false;
       directFlightsOnly := false; show2pc := false; sortBy := sortBy cfg |}).
  { change (showMoreTimes 3 cfg) with (handleShowMore (showMoreTimes 2 cfg)).
    rewrite E2. reflexivity. }
  repeat split; try assumption.
  - intros n Hn. induction Hn as [|n Hn IH]; [reflexivity|].
    change (showMoreTimes (S n) cfg) with (handleShowMore (showMoreTimes n cfg)).
    rewrite IH, E3. reflexivity.
  - intros H2 n Hn. induction Hn as [|n Hn IH]; [reflexivity|].
    change (showMoreTimes (S n) cfg) with (handleShowMore (showMoreTimes n cfg)).
    rewrite IH, E2, H2. reflexivity.
Qed.

(** ** The search *)

(** C3, amended: the handler of a fulfilled fetch appends its batch to the
    current flight collection whichever call of [handleSearch] started the
    fetch, the latest or an earlier one; nothing compares sessions.  Only what
    was merged before a permitted search starts is dropped, because starting it
    clears the collection. *)
Theorem settled_batch_is_appended w n src batch w' :
  step w (Settle n src (Fulfilled batch)) = Some w' ->
  flights (page w') = flights (page w) ++ batch /\
  forall profile,
    canCheckVJ profile || canCheckVNA profile = true ->
    flights (page (startSearch profile w')) = [].
Proof.
  intros H. split.
  - simpl in H.
    destruct (invocations w !! n) as [inv|]; [|discriminate].
    destruct (settlePromise src (Fulfilled batch) (promises inv)); [|discriminate].
    injection H as <-. simpl.
    destruct batch; simpl; [now rewrite app_nil_r|reflexivity].
  - intros profile Hp. unfold startSearch.
    destruct (canCheckVJ profile), (canCheckVNA profile); try discriminate; reflexivity.
Qed.

Lemma hasVfr2pc_spec all :
  hasVfr2pc all = true <->
  exists f, In f all /\ airline f = "VNA" /\ baggageType f = "VFR".
Proof.
  unfold hasVfr2pc. rewrite existsb_exists.
  split; intros (f & Hf & H); exists f; (split; [assumption|]).
  - apply andb_true_iff in H as [H1 H2]. now rewrite String.eqb_eq in H1, H2.
  - destruct H as [-> ->]. reflexivity.
Qed.

Lemma searchHasDirectFlights_spec all :
  searchHasDirectFlights all = true <->
  exists f, In f all /\ stops (departure f) = 0.
Proof.
  unfold searchHasDirectFlights. rewrite existsb_exists.
  split; intros (f & Hf & H); exists f; (split; [assumption|]); now apply Z.eqb_eq.
Qed.

Lemma isDirect_departure f : isDirect f = true -> stops (departure f) = 0.
Proof.
  unfold isDirect. destruct (return_ f).
  - intros [H _]%andb_true_iff. now apply Z.eqb_eq.
  - apply Z.eqb_eq.
Qed.

(** C5, amended: when the fan-out of a call completes, with [all] the
    concatenated batches of its fulfilled fetches:
    [show2pc] keeps its value when [all] holds a VNA flight of baggage type VFR
    and is cleared otherwise (VJ flights do not count);
    [directFlightsOnly] is cleared when no flight of [all] has zero stops on the
    departure leg and keeps its value when some flight is direct on all its legs;
    a flag that was cleared stays cleared, and the other fields, the flights and
    the error are untouched. *)
Theorem auto_adjust_after_fan_out w n w' :
  step w (AllSettled n) = Some w' ->
  exists inv all,
    invocations w !! n = Some inv /\
    allFlights (promises inv) = Some all /\
    ((exists f, In f all /\ airline f = "VNA" /\ baggageType f = "VFR") ->
       show2pc (filters (page w')) = show2pc (filters (page w))) /\
    (~ (exists f, In f all /\ airline f = "VNA" /\ baggageType f = "VFR") ->
       show2pc (filters (page w')) = false) /\
    ((forall f, In f all -> stops (departure f) <> 0) ->
       directFlightsOnly (filters (page w')) = false) /\
    ((exists f, In f all /\ isDirect f = true) ->
       directFlightsOnly (filters (page w')) = directFlightsOnly (filters (page w))) /\
    (show2pc (filters (page w)) = false -> show2pc (filters (page w')) = false) /\
    (directFlightsOnly (filters (page w)) = false ->
       directFlightsOnly (filters (page w')) = false) /\
    airlines (filters (page w')) = airlines (filters (page w)) /\
    showCheapestOnly (filters (page w')) = showCheapestOnly (filters (page w)) /\
    sortBy (filters (page w')) = sortBy (filters (page w)) /\
    flights (page w') = flights (page w) /\
    error (page w') = error (page w) /\
    loading (page w') = false.
Proof.
  intros H. simpl in H.
  destruct (invocations w !! n) as [inv|]; [|discriminate].
  destruct (awaiting inv); [|discriminate].
  destruct (allFlights (promises inv)) as [all|] eqn:Eall; [|discriminate].
  injection H as <-. exists inv, all. simpl.
  pose proof (hasVfr2pc_spec all) as Hv.
  pose proof (searchHasDirectFlights_spec all) as Hd.
  destruct (hasVfr2pc all), (searchHasDirectFlights all).
  all: repeat split; try reflexivity; try assumption; try tauto.
  all: try (intros Hn; exfalso; apply Hn; now apply Hv).
  all: try (intros Hn; exfalso;
            destruct (proj1 Hd eq_refl) as (f & Hf & Hz); now apply (Hn f)).
  all: try (intros (f & Hf & Hdir); apply isDirect_departure in Hdir;
            assert (false = true) by (apply Hd; eauto); discriminate).
  all: try (intros (f & Hf); assert (false = true) by (apply Hv; eauto); discriminate).
Qed.

(** *** Every fetch fails *)



Lemma lookup_last_invocation (invs : list Invocation) inv :
  (invs ++ [inv]) !! List.length invs = Some inv.
Proof. now apply list_lookup_middle. Qed.

Lemma insert_last_invocation (invs : list Invocation) inv inv' :
  <[List.length invs := inv']> (invs ++ [inv]) = invs ++ [inv'].
Proof.
  rewrite insert_app_r_alt by reflexivity. now rewrite Nat.sub_diag.
Qed.



(** ** The input array is sorted in place *)

(** C8: with no airline selected and every flag cleared no stage copies, and
    the array passed in is itself reordered by the sort. *)
Theorem sort_reorders_the_input_array :
  inputAfter (filterAndSortFlights ordinalCompare noFilters) dearerFirst =
    [oneWay "b" "VJ" 100 "ECO"; oneWay "a" "VJ" 200 "ECO"] /\
  inputAfter (filterAndSortFlights ordinalCompare noFilters) dearerFirst <> dearerFirst /\
  inputAfter (filterAndSortFlights ordinalCompare initialFilters) dearerFirst = dearerFirst.
Proof.
  split; [reflexivity|]. split; [|reflexivity].
  intros E. discriminate E.
Qed.

(** ** Examples and counterexamples *)

Lemma ordinalCompare_antisym a b :
  0 < ordinalCompare a b -> ordinalCompare b a <= 0.
Proof.
  unfold ordinalCompare. rewrite (String.compare_antisym a b).
  destruct (String.compare b a); simpl; lia.
Qed.

(** C1 as stated fails: of two VJ flights of equal price the pipeline keeps the
    second, so the kept flight has an earlier flight of its airline and price. *)
Lemma first_encountered_is_not_kept :
  showCheapestOnly initialFilters = true /\
  ~ (forall g, In g (evaluate ordinalCompare initialFilters twins) ->
       exists l1 l2, preReduction initialFilters twins = l1 ++ g :: l2 /\
         forall f, In f l1 -> airline f = airline g -> price f <> price g).
Proof.
  split; [reflexivity|]. intros H.
  destruct (H (oneWay "b" "VJ" 100 "ECO")) as (l1 & l2 & E & Hf).
  { left. reflexivity. }
  change (preReduction initialFilters twins) with twins in E.
  destruct l1 as [|x [|y l1]]; unfold twins in E; simpl in E.
  - discriminate E.
  - injection E as <- _. apply (Hf (oneWay "a" "VJ" 100 "ECO")); simpl; auto.
  - injection E as _ _ E. destruct l1; discriminate E.
Qed.

Lemma two_bag_stage_keeps_example :
  show2pc initialFilters = true /\
  contents (filter2pc initialFilters) mixed =
    [oneWay "n1" "VNA" 100 "VFR"; oneWay "j1" "VJ" 120 "ECO"].
Proof.
  split; [reflexivity|].
  exact (proj1 (two_bag_stage_keeps initialFilters mixed eq_refl)).
Defined.

(** C3 as stated fails: the first search is still pending when the second
    starts; its VietJet batch then settles and lands in the collection of the
    second search. *)
Lemma stale_batch_reaches_new_search :
  exists w,
    run initialWorld [Search bothAirlines; Search bothAirlines] = Some twoSearches /\
    List.length (invocations twoSearches) = 2%nat /\
    flights (page twoSearches) = [] /\
    step twoSearches (Settle 0 VietJet (Fulfilled [oneWay "a" "VJ" 100 "ECO"])) = Some w /\
    invocations w !! 1%nat =
      Some {| promises := [(VietJet, None); (VietnamAirlines, None)]; awaiting := true |} /\
    In (oneWay "a" "VJ" 100 "ECO") (flights (page w)).
Proof.
  eexists. repeat split; try reflexivity. left. reflexivity.
Qed.

Lemma settled_batch_is_appended_example :
  exists w,
    step twoSearches (Settle 0 VietJet (Fulfilled [oneWay "a" "VJ" 100 "ECO"])) = Some w /\
    flights (page w) = flights (page twoSearches) ++ [oneWay "a" "VJ" 100 "ECO"].
Proof.
  eexists. split; [reflexivity|].
  exact (proj1 (settled_batch_is_appended twoSearches 0 VietJet
                  [oneWay "a" "VJ" 100 "ECO"] _ eq_refl)).
Defined.

(** C4 as stated fails: the third call clears [show2pc]. *)
Lemma third_show_more_is_not_a_no_op :
  showCheapestOnly initialFilters = true /\
  directFlightsOnly initialFilters = true /\
  handleShowMore (showMoreTimes 2 initialFilters) <> showMoreTimes 2 initialFilters.
Proof.
  repeat split. intros E. discriminate E.
Qed.

Lemma show_more_ladder_example :
  showCheapestOnly initialFilters = true /\
  directFlightsOnly initialFilters = true /\
  showMoreTimes 5 initialFilters = showMoreTimes 3 initialFilters.
Proof.
  split; [reflexivity|]. split; [reflexivity|].
  apply (show_more_ladder initialFilters eq_refl eq_refl). lia.
Defined.

(** C5 as stated fails: the result set holds a VJ flight, which satisfies the
    two-bag predicate of the filter, and [show2pc] is cleared all the same. *)
Lemma show2pc_cleared_despite_VJ_flight :
  exists w',
    run initialWorld onlyVietJet = Some afterOnlyVietJet /\
    step afterOnlyVietJet (AllSettled 0) = Some w' /\
    show2pc (filters (page afterOnlyVietJet)) = true /\
    is2pc (oneWay "a" "VJ" 100 "ECO") = true /\
    show2pc (filters (page w')) = false.
Proof.
  eexists. repeat split; reflexivity.
Qed.

Lemma auto_adjust_after_fan_out_example :
  exists w',
    step afterOnlyVietJet (AllSettled 0) = Some w' /\
    exists inv all,
      invocations afterOnlyVietJet !! 0%nat = Some inv /\
      allFlights (promises inv) = Some all /\
      (~ (exists f, In f all /\ airline f = "VNA" /\ baggageType f = "VFR") ->
       show2pc (filters (page w')) = false).
Proof.
  eexists. split; [reflexivity|].
  destruct (auto_adjust_after_fan_out afterOnlyVietJet 0%nat _ eq_refl)
    as (inv & all & H1 & H2 & _ & H4 & _).
  exists inv, all. auto.
Defined.



(** C9 as stated fails: with the sort key "arrival" the pipeline returns, and
    the dearer flight is still first. *)
Lemma unknown_sort_key_is_not_rejected :
  sortBy arrivalFilters <> "price" /\
  sortBy arrivalFilters <> "duration" /\
  sortBy arrivalFilters <> "departure" /\
  evaluate ordinalCompare arrivalFilters dearerFirst = dearerFirst.
Proof.
  repeat split; discriminate.
Qed.

Lemma unknown_sort_key_keeps_order_example :
  sortBy arrivalFilters <> "price" /\
  sortBy arrivalFilters <> "duration" /\
  sortBy arrivalFilters <> "departure" /\
  evaluate ordinalCompare arrivalFilters dearerFirst =
    preReduction arrivalFilters dearerFirst.
Proof.
  assert (H1 : sortBy arrivalFilters <> "price") by discriminate.
  assert (H2 : sortBy arrivalFilters <> "duration") by discriminate.
  assert (H3 : sortBy arrivalFilters <> "departure") by discriminate.
  split; [exact H1|]. split; [exact H2|]. split; [exact H3|].
  exact (unknown_sort_key_keeps_order ordinalCompare arrivalFilters dearerFirst H1 H2 H3).
Defined.

Lemma equal_price_VJ_before_VNA_example :
  showCheapestOnly initialFilters = true /\
  sortBy initialFilters = "price" /\
  leastPrice "VJ" (preReduction initialFilters tie) 100 /\
  leastPrice "VNA" (preReduction initialFilters tie) 100 /\
  exists v w,
    evaluate ordinalCompare initialFilters tie = [v; w] /\
    airline v = "VJ" /\ airline w = "VNA" /\ price v = 100 /\ price w = 100.
Proof.
  assert (HJ : leastPrice "VJ" (preReduction initialFilters tie) 100).
  { split.
    - exists (oneWay "j2" "VJ" 100 "ECO"). simpl. auto.
    - intros f Hf. simpl in Hf.
      destruct Hf as [<-|[<-|[<-|[<-|[]]]]]; simpl; intros; (lia || discriminate). }
  assert (HN : leastPrice "VNA" (preReduction initialFilters tie) 100).
  { split.
    - exists (oneWay "n1" "VNA" 100 "VFR"). simpl. auto.
    - intros f Hf. simpl in Hf.
      destruct Hf as [<-|[<-|[<-|[<-|[]]]]]; simpl; intros; (lia || discriminate). }
  split; [reflexivity|]. split; [reflexivity|]. split; [exact HJ|]. split; [exact HN|].
  exact (equal_price_VJ_before_VNA ordinalCompare initialFilters tie 100
           eq_refl eq_refl HJ HN).
Defined.

(** * Further properties of the page *)

(** ** What the pipeline returns *)

Lemma isDirect_spec f :
  isDirect f = true <->
  stops (departure f) = 0 /\ forall r, return_ f = Some r -> stops r = 0.
Proof.
  unfold isDirect. destruct (return_ f) as [r|].
  - rewrite andb_true_iff, !Z.eqb_eq. split.
    + intros [H1 H2]. split; [assumption|]. now intros r' [= <-].
    + intros [H1 H2]. auto.
  - rewrite Z.eqb_eq. split; [|tauto]. intros H. split; [assumption|discriminate].
Qed.

Lemma includesAirline_spec cfg f :
  includesAirline cfg f = true <-> In (airline f) (airlines cfg).
Proof.
  unfold includesAirline. rewrite existsb_exists. split.
  - intros (a & Ha & E). apply String.eqb_eq in E. now subst.
  - intros H. exists (airline f). split; [assumption|apply String.eqb_refl].
Qed.

(** The flights that reach the cheapest-only block are the flights of the
    input that pass the filters. *)
Lemma preReduction_In cfg fs f :
  In f (preReduction cfg fs) <-> In f fs /\ passesFilters cfg f.
Proof.
  rewrite preReduction_value. unfold passesFilters. cbv zeta.
  rewrite <- isDirect_spec, <- is2pc_spec, <- includesAirline_spec.
  destruct (airlines cfg) as [|a l] eqn:Ea; cbn [List.length Nat.ltb Nat.leb];
    destruct (directFlightsOnly cfg), (show2pc cfg);
    rewrite ?filter_In.
  all: try (assert (Hinc : includesAirline cfg f = false)
              by (unfold includesAirline; now rewrite Ea)).
  all: intuition (try congruence; try discriminate).
Qed.

Lemma preReduction_length cfg fs :
  (List.length (preReduction cfg fs) <= List.length fs)%nat.
Proof.
  rewrite preReduction_value. cbv zeta.
  destruct (0 <? List.length (airlines cfg))%nat, (directFlightsOnly cfg), (show2pc cfg).
  all: repeat (eapply Nat.le_trans; [apply filter_length_le|]); apply Nat.le_refl.
Qed.

Lemma keeps_spec cfg f : keeps cfg f = true <-> passesFilters cfg f.
Proof.
  unfold keeps, passesFilters.
  rewrite <- isDirect_spec, <- is2pc_spec, <- includesAirline_spec.
  rewrite !andb_true_iff, !orb_true_iff, !negb_true_iff.
  destruct (airlines cfg) as [|a l] eqn:Ea; cbn [List.length Nat.ltb Nat.leb];
    destruct (directFlightsOnly cfg), (show2pc cfg).
  all: intuition (try congruence; try discriminate).
Qed.

Lemma filter_twice (p q : Flight -> bool) l :
  List.filter p (List.filter q l) = List.filter (fun x => q x && p x) l.
Proof.
  induction l as [|x l IH]; simpl; [reflexivity|].
  destruct (q x); simpl; [destruct (p x)|]; now rewrite IH.
Qed.

(** The first three stages amount to one filter by [keeps]. *)
Lemma preReduction_keeps cfg fs : preReduction cfg fs = List.filter (keeps cfg) fs.
Proof.
  rewrite preReduction_value. cbv zeta. unfold keeps.
  destruct (0 <? List.length (airlines cfg))%nat, (directFlightsOnly cfg), (show2pc cfg);
    cbn [negb orb]; rewrite ?filter_twice.
  all: try (apply filter_ext; intros x;
            destruct (includesAirline cfg x), (isDirect x), (is2pc x); reflexivity).
  symmetry. now apply filter_all_true.
Qed.

Section ResultFacts.

Variable localeCompare : string -> string -> Z.

Local Abbreviation compareBy cfg := (sortCompare (compareFlights localeCompare cfg)).

(** X1: every returned flight is a flight of the input that passes the filters
    in force: selected airline (unless none is selected), direct on each leg it
    has under [directFlightsOnly], two bags under [show2pc]. *)
Theorem returned_flights_pass_filters cfg fs f :
  In f (evaluate localeCompare cfg fs) -> In f fs /\ passesFilters cfg f.
Proof.
  intros H%evaluate_subset. now apply preReduction_In.
Qed.

(** X2: without [showCheapestOnly] the result is a rearrangement of exactly the
    input flights the filters keep, each as often as it occurs in the input;
    so a flight is returned if and only if it is in the input and passes. *)
Theorem relaxed_result_is_all_passing cfg fs :
  showCheapestOnly cfg = false ->
  Permutation (evaluate localeCompare cfg fs) (List.filter (keeps cfg) fs) /\
  (forall f, In f (evaluate localeCompare cfg fs) <-> In f fs /\ passesFilters cfg f).
Proof.
  intros Hc.
  assert (P : Permutation (evaluate localeCompare cfg fs) (List.filter (keeps cfg) fs)).
  { rewrite evaluate_value, Hc, preReduction_keeps. apply sorted_perm. }
  split; [exact P|]. intros f. rewrite <- keeps_spec, <- filter_In.
  split; apply Permutation_in; [exact P|symmetry; exact P].
Qed.

Lemma disjoint_filters_length (p q : Flight -> bool) l :
  (forall x, p x = true -> q x = false) ->
  (List.length (List.filter p l) + List.length (List.filter q l) <= List.length l)%nat.
Proof.
  intros H. induction l as [|x l IH]; simpl; [lia|].
  destruct (p x) eqn:Hp; [rewrite (H x Hp)|destruct (q x)]; simpl; lia.
Qed.

Lemma reduce1_Some_nonempty l g : reduce1 cheaper l = Some g -> (1 <= List.length l)%nat.
Proof. destruct l; [discriminate|]. simpl. lia. Qed.

(** X3: the result is never longer than the input, and under
    [showCheapestOnly] it holds at most two flights, each VJ or VNA, whatever
    airlines are selected. *)
Theorem result_size cfg fs :
  (List.length (evaluate localeCompare cfg fs) <= List.length fs)%nat /\
  (showCheapestOnly cfg = true ->
     (List.length (evaluate localeCompare cfg fs) <= 2)%nat /\
     forall f, In f (evaluate localeCompare cfg fs) ->
       airline f = "VJ" \/ airline f = "VNA").
Proof.
  rewrite evaluate_value.
  pose proof (preReduction_length cfg fs) as Hpre.
  pose proof (disjoint_filters_length isVJ isVNA (preReduction cfg fs) isVJ_not_VNA) as Hd.
  destruct (showCheapestOnly cfg).
  - destruct (reduce1 cheaper (List.filter isVJ (preReduction cfg fs))) as [v|] eqn:Ev;
    destruct (reduce1 cheaper (List.filter isVNA (preReduction cfg fs))) as [w|] eqn:Ew.
    all: try pose proof (reduce1_Some_nonempty _ _ Ev).
    all: try pose proof (reduce1_Some_nonempty _ _ Ew).
    all: try (apply cheapest_of_airline in Ev as [Ev%isVJ_spec _]).
    all: try (apply cheapest_of_airline in Ew as [Ew%isVNA_spec _]).
    all: rewrite (Permutation_length (sorted_perm _ _)); cbn [nonNull omap list_omap List.length].
    all: split; [lia|]; intros _; split; [lia|].
    all: intros f Hf%sorted_In; simpl in Hf.
    all: repeat (destruct Hf as [<-|Hf]; [auto|]); contradiction.
  - rewrite (Permutation_length (sorted_perm _ _)). split; [exact Hpre|discriminate].
Qed.

(** ** The order of the result *)

Lemma insertSorted_In cmp x s y : In y (insertSorted cmp x s) <-> y = x \/ In y s.
Proof.
  split.
  - intros H. apply (Permutation_in _ (insertSorted_perm cmp x s)) in H.
    destruct H; auto.
  - intros H. apply (Permutation_in _ (Permutation_sym (insertSorted_perm cmp x s))).
    destruct H; [left|right]; auto.
Qed.

Lemma insertSorted_strongly cmp x s :
  (forall y, In y s -> 0 < cmp x y -> cmp y x <= 0) ->
  (forall y z, In y s -> In z s -> cmp x y <= 0 -> cmp y z <= 0 -> cmp x z <= 0) ->
  StronglySorted (fun a b => cmp a b <= 0) s ->
  StronglySorted (fun a b => cmp a b <= 0) (insertSorted cmp x s).
Proof.
  intros Ha Ht Hs. induction s as [|y s IH]; simpl.
  - repeat constructor.
  - apply StronglySorted_inv in Hs as [Hs Hy].
    destruct (Z.leb_spec (cmp x y) 0) as [Hle|Hgt].
    + constructor; [now constructor|]. constructor; [assumption|].
      rewrite List.Forall_forall in *. intros z Hz.
      apply (Ht y z); [now left|now right|assumption|now apply Hy].
    + constructor.
      * apply IH; [| |assumption].
        -- intros z Hz. apply Ha. now right.
        -- intros z z' Hz Hz'. apply Ht; now right.
      * rewrite List.Forall_forall in *. intros z [->|Hz]%insertSorted_In.
        -- apply Ha; simpl; auto.
        -- now apply Hy.
Qed.

(** On a sequence whose flights the comparator orders consistently, the sort
    returns a sequence in which every flight compares at most equal to every
    later one. *)
Lemma sorted_strongly cmp l :
  (forall a b, In a l -> In b l -> 0 < cmp a b -> cmp b a <= 0) ->
  (forall a b c, In a l -> In b l -> In c l ->
     cmp a b <= 0 -> cmp b c <= 0 -> cmp a c <= 0) ->
  StronglySorted (fun a b => cmp a b <= 0) (sorted cmp l).
Proof.
  induction l as [|x l IH]; intros Ha Ht; simpl; [constructor|].
  apply insertSorted_strongly.
  - intros y Hy%sorted_In. apply Ha; simpl; auto.
  - intros y z Hy%sorted_In Hz%sorted_In. apply Ht; simpl; auto.
  - apply IH.
    + intros a b Ia Ib. apply Ha; simpl; auto.
    + intros a b c Ia Ib Ic. apply Ht; simpl; auto.
Qed.

Lemma StronglySorted_weaken (R R' : Flight -> Flight -> Prop) l :
  (forall a b, In a l -> In b l -> R a b -> R' a b) ->
  StronglySorted R l -> StronglySorted R' l.
Proof.
  intros H Hs. induction Hs as [|x l Hs IH Hx]; constructor.
  - apply IH. intros a b Ia Ib. apply H; simpl; auto.
  - rewrite List.Forall_forall in *. intros y Hy. apply H; simpl; auto.
Qed.

(** The sort moves a flight only past flights it compares greater than: a
    selection that never holds of both keeps its order. *)
Lemma insertSorted_filter cmp (sel : Flight -> bool) x s :
  (forall y, In y s -> 0 < cmp x y -> sel x = true -> sel y = false) ->
  List.filter sel (insertSorted cmp x s) = List.filter sel (x :: s).
Proof.
  induction s as [|y s IH]; intros H; [reflexivity|].
  cbn [insertSorted]. destruct (Z.leb_spec (cmp x y) 0) as [Hle|Hgt]; [reflexivity|].
  cbn [List.filter]. rewrite IH by (intros z Hz; apply H; now right).
  cbn [List.filter]. destruct (sel x) eqn:Hx; [|reflexivity].
  rewrite (H y); simpl; auto.
Qed.

Lemma sorted_filter cmp (sel : Flight -> bool) l :
  (forall a b, In a l -> In b l -> 0 < cmp a b -> sel a = true -> sel b = false) ->
  List.filter sel (sorted cmp l) = List.filter sel l.
Proof.
  induction l as [|x l IH]; intros H; [reflexivity|].
  cbn [sorted]. rewrite insertSorted_filter.
  - cbn [List.filter]. rewrite IH; [reflexivity|].
    intros a b Ia Ib. apply H; simpl; auto.
  - intros y Hy%sorted_In. apply H; simpl; auto.
Qed.

(** Two arrangements of the same flights that are both in order and both keep
    the order of flights comparing equal are the same sequence, when the
    comparator is consistent on these flights. *)
Lemma stable_sorted_unique (cmp : Flight -> Flight -> Z) l1 : forall l2,
  (forall a b, In a l1 -> In b l1 -> cmp a b < 0 <-> 0 < cmp b a) ->
  Permutation l1 l2 ->
  StronglySorted (fun a b => cmp a b <= 0) l1 ->
  StronglySorted (fun a b => cmp a b <= 0) l2 ->
  (forall x, In x l1 ->
     List.filter (fun y => cmp x y =? 0) l1 = List.filter (fun y => cmp x y =? 0) l2) ->
  l1 = l2.
Proof.
  induction l1 as [|a t1 IH]; intros l2 Hsign Hp Hs1 Hs2 Hf.
  - symmetry. now apply Permutation_nil.
  - destruct l2 as [|b t2]; [symmetry in Hp; now apply Permutation_nil in Hp|].
    apply StronglySorted_inv in Hs1 as [Hs1 Ha], Hs2 as [Hs2 Hb].
    rewrite List.Forall_forall in Ha, Hb.
    assert (Ia : In a (a :: t1)) by now left.
    assert (Ib : In b (a :: t1)).
    { apply (Permutation_in _ (Permutation_sym Hp)). now left. }
    assert (Ia' : In a (b :: t2)) by (apply (Permutation_in _ Hp); now left).
    assert (Haa : cmp a a = 0) by (pose proof (Hsign a a Ia Ia); lia).
    assert (Hbb : cmp b b = 0) by (pose proof (Hsign b b Ib Ib); lia).
    assert (Hab : cmp a b <= 0).
    { destruct Ib as [<-|Ib]; [lia|now apply Ha]. }
    assert (Hba : cmp b a <= 0).
    { destruct Ia' as [<-|Ia']; [lia|now apply Hb]. }
    assert (Hab0 : cmp a b = 0) by (pose proof (Hsign a b Ia Ib); lia).
    pose proof (Hf a Ia) as E. cbn [List.filter] in E. rewrite Haa, Hab0 in E.
    cbn in E. injection E as <- _.
    f_equal. apply IH.
    + intros x y Ix Iy. apply Hsign; now right.
    + now apply Permutation_cons_inv in Hp.
    + assumption.
    + assumption.
    + intros x Ix. pose proof (Hf x (or_intror Ix)) as E. cbn [List.filter] in E.
      destruct (cmp x a =? 0); [now injection E|exact E].
Qed.

(** For a comparator that is consistent on the flights of [l], the sort returns
    the one arrangement of [l] that is in order and keeps the order of flights
    comparing equal: what a stable sort has to return. *)
Lemma sorted_is_the_stable_sort cmp l l' :
  (forall a b, In a l -> In b l -> cmp a b < 0 <-> 0 < cmp b a) ->
  (forall a b c, In a l -> In b l -> In c l ->
     cmp a b <= 0 -> cmp b c <= 0 -> cmp a c <= 0) ->
  Permutation l' l ->
  StronglySorted (fun a b => cmp a b <= 0) l' ->
  (forall x, In x l ->
     List.filter (fun y => cmp x y =? 0) l' = List.filter (fun y => cmp x y =? 0) l) ->
  l' = sorted cmp l.
Proof.
  intros Hsign Htrans Hp Hs Hf.
  assert (Hin : forall x, In x l' -> In x l) by (intros x; apply Permutation_in, Hp).
  apply stable_sorted_unique with (cmp := cmp).
  - intros a b Ia Ib. apply Hsign; auto.
  - rewrite Hp. symmetry. apply sorted_perm.
  - assumption.
  - apply sorted_strongly; [|assumption].
    intros a b Ia Ib Hgt. apply Z.lt_le_incl, (Hsign b a Ib Ia). exact Hgt.
  - intros x Ix. rewrite (Hf x (Hin x Ix)). symmetry. apply sorted_filter.
    intros a b Ia Ib Hgt Hxa%Z.eqb_eq. apply Z.eqb_neq. intros Hxb.
    pose proof (Hin x Ix) as Ix'.
    assert (Hax : cmp a x <= 0).
    { pose proof (Hsign a x Ia Ix'). pose proof (Hsign x a Ix' Ia). lia. }
    assert (cmp a b <= 0) by (apply (Htrans a x b); auto; lia).
    lia.
Qed.

Lemma compareBy_price cfg a b :
  sortBy cfg = "price" -> compareBy cfg a b = price a - price b.
Proof. unfold sortCompare, compareFlights. intros ->. reflexivity. Qed.

(** X4: with the sort by price the result is in ascending price order, and
    flights of equal price keep the order they had in the input. *)
Theorem price_sort_is_stable cfg fs :
  sortBy cfg = "price" ->
  StronglySorted (fun a b => price a <= price b) (evaluate localeCompare cfg fs) /\
  (showCheapestOnly cfg = false ->
   forall p,
     List.filter (fun f => price f =? p) (evaluate localeCompare cfg fs) =
     List.filter (fun f => keeps cfg f && (price f =? p)) fs).
Proof.
  intros Hs. rewrite evaluate_value. split.
  - apply StronglySorted_weaken with (R := fun a b => compareBy cfg a b <= 0).
    + intros a b _ _. rewrite (compareBy_price cfg a b Hs). lia.
    + apply sorted_strongly; intros *; rewrite ?(compareBy_price _ _ _ Hs); lia.
  - intros -> p. rewrite sorted_filter, preReduction_keeps, filter_twice; [reflexivity|].
    intros a b _ _. rewrite (compareBy_price cfg a b Hs).
    intros Hlt Ha%Z.eqb_eq. apply Z.eqb_neq. lia.
Qed.

Lemma result_In_input cfg l f :
  In f (if showCheapestOnly cfg
        then nonNull [reduce1 cheaper (List.filter isVJ (preReduction cfg l));
                      reduce1 cheaper (List.filter isVNA (preReduction cfg l))]
        else preReduction cfg l) ->
  In f l.
Proof.
  intros H. apply (sorted_In (compareBy cfg)) in H. rewrite <- evaluate_value in H.
  now apply evaluate_subset, preReduction_In in H.
Qed.

Lemma compareBy_duration cfg a b :
  sortBy cfg = "duration" ->
  durationKey a <> NaN -> durationKey b <> NaN ->
  compareBy cfg a b = durationValue a - durationValue b.
Proof.
  unfold sortCompare, compareFlights, durationValue, durationKey. intros -> Ha Hb. cbn.
  destruct (parseInt (stripNonDigits (duration a))),
           (parseInt (stripNonDigits (duration b))); try congruence. reflexivity.
Qed.

(** X5: with the sort by duration, when every duration of the input has a
    digit and its digits read as a number below 2^53, the result is in
    ascending order of the number formed by all the digits of the duration
    string. *)
Theorem duration_sort_orders_by_digits cfg fs :
  sortBy cfg = "duration" ->
  durationsExact fs ->
  StronglySorted (fun a b => durationValue a <= durationValue b)
    (evaluate localeCompare cfg fs).
Proof.
  intros Hs Hex.
  assert (Hd : forall f, In f fs -> durationKey f <> NaN).
  { intros f Hf. destruct (Hex f Hf) as (z & -> & _). discriminate. }
  rewrite evaluate_value.
  assert (E : forall a b,
             In a (sorted (compareBy cfg)
                     (if showCheapestOnly cfg
                      then nonNull [reduce1 cheaper (List.filter isVJ (preReduction cfg fs));
                                    reduce1 cheaper (List.filter isVNA (preReduction cfg fs))]
                      else preReduction cfg fs)) ->
             In b (sorted (compareBy cfg)
                     (if showCheapestOnly cfg
                      then nonNull [reduce1 cheaper (List.filter isVJ (preReduction cfg fs));
                                    reduce1 cheaper (List.filter isVNA (preReduction cfg fs))]
                      else preReduction cfg fs)) ->
             compareBy cfg a b = durationValue a - durationValue b).
  { intros a b Ia%sorted_In%result_In_input Ib%sorted_In%result_In_input.
    apply compareBy_duration; auto. }
  apply StronglySorted_weaken with (R := fun a b => compareBy cfg a b <= 0).
  - intros a b Ia Ib. rewrite (E a b Ia Ib). lia.
  - apply sorted_strongly.
    + intros a b Ia Ib.
      rewrite (E a b), (E b a); try (apply sorted_In; assumption). lia.
    + intros a b c Ia Ib Ic.
      rewrite (E a b), (E b c), (E a c); try (apply sorted_In; assumption). lia.
Qed.

(** X6: with the sort by departure time, for a collation that is total and
    transitive, the result is in ascending order of [departure.time]. *)
Theorem departure_sort_orders cfg fs :
  sortBy cfg = "departure" ->
  (forall a b, 0 < localeCompare a b -> localeCompare b a <= 0) ->
  (forall a b c, localeCompare a b <= 0 -> localeCompare b c <= 0 ->
     localeCompare a c <= 0) ->
  StronglySorted
    (fun a b => localeCompare (time (departure a)) (time (departure b)) <= 0)
    (evaluate localeCompare cfg fs).
Proof.
  intros Hs Ha Ht. rewrite evaluate_value.
  assert (E : forall a b,
             compareBy cfg a b = localeCompare (time (departure a)) (time (departure b))).
  { intros a b. unfold sortCompare, compareFlights. rewrite Hs. reflexivity. }
  apply StronglySorted_weaken with (R := fun a b => compareBy cfg a b <= 0).
  - intros a b _ _. now rewrite E.
  - apply sorted_strongly.
    + intros a b _ _. rewrite !E. apply Ha.
    + intros a b c _ _ _. rewrite !E. apply Ht.
Qed.

(** X7: under [showCheapestOnly] an airline among VJ and VNA has a flight in
    the result exactly when some flight of that airline in the input passes
    the filters: the reduction never drops an airline altogether. *)
Theorem cheapest_only_keeps_each_airline cfg fs a :
  showCheapestOnly cfg = true ->
  a = "VJ" \/ a = "VNA" ->
  (exists f, In f fs /\ passesFilters cfg f /\ airline f = a) <->
  (exists g, In g (evaluate localeCompare cfg fs) /\ airline g = a).
Proof.
  intros Hc Ha. split.
  - intros (f & Hf & Hp & Hfa).
    assert (Hpre : In f (preReduction cfg fs)) by now apply preReduction_In.
    rewrite evaluate_value, Hc.
    destruct Ha as [-> | ->].
    + destruct (reduce1_nonempty (List.filter isVJ (preReduction cfg fs))) as [v Ev].
      { intros E. assert (H : In f (List.filter isVJ (preReduction cfg fs)))
          by (apply filter_In; split; [assumption|now apply isVJ_spec]).
        rewrite E in H. destruct H. }
      exists v. rewrite Ev. split.
      * apply sorted_In. now left.
      * apply cheapest_of_airline in Ev as [Ev _]. now apply isVJ_spec.
    + destruct (reduce1_nonempty (List.filter isVNA (preReduction cfg fs))) as [v Ev].
      { intros E. assert (H : In f (List.filter isVNA (preReduction cfg fs)))
          by (apply filter_In; split; [assumption|now apply isVNA_spec]).
        rewrite E in H. destruct H. }
      exists v. rewrite Ev. split.
      * apply sorted_In.
        destruct (reduce1 cheaper (List.filter isVJ (preReduction cfg fs)));
          simpl; auto.
      * apply cheapest_of_airline in Ev as [Ev _]. now apply isVNA_spec.
  - intros (g & Hg & Hga). exists g.
    apply evaluate_subset, preReduction_In in Hg. tauto.
Qed.

(** X8: when no flight of the collection is direct on every leg it has (the
    test the filter panel receives as [hasDirectFlights]) and
    [directFlightsOnly] is set, the result is empty and the show-more button
    is not rendered, whatever [shouldShowMoreButton] says. *)
Theorem no_direct_flight_no_result (p : Page) :
  directFlightsOnly (filters p) = true ->
  hasDirectFlights (flights p) = false ->
  evaluate localeCompare (filters p) (flights p) = [] /\
  showMoreButtonRendered localeCompare p = false.
Proof.
  intros Hd Hn.
  assert (E : evaluate localeCompare (filters p) (flights p) = []).
  { destruct (evaluate localeCompare (filters p) (flights p)) as [|f l] eqn:El;
      [reflexivity|].
    assert (Hf : In f (evaluate localeCompare (filters p) (flights p)))
      by (rewrite El; now left).
    apply evaluate_subset, preReduction_In in Hf as [Hf (_ & Hdir & _)].
    apply isDirect_spec in Hdir; [|assumption].
    assert (hasDirectFlights (flights p) = true)
      by (apply existsb_exists; eauto).
    congruence. }
  split; [exact E|]. unfold showMoreButtonRendered. rewrite E. reflexivity.
Qed.

(** X9: a click on show-more never removes a flight from the result: whatever
    was returned before the click is still returned after it. *)
Theorem show_more_never_hides cfg fs f :
  In f (evaluate localeCompare cfg fs) ->
  In f (evaluate localeCompare (handleShowMore cfg) fs).
Proof.
  intros [Hf (Ha & Hd & H2)]%evaluate_subset%preReduction_In.
  assert (Hc : showCheapestOnly (handleShowMore cfg) = false).
  { unfold handleShowMore.
    destruct (showCheapestOnly cfg) eqn:E, (directFlightsOnly cfg); simpl; auto. }
  rewrite evaluate_value, Hc. apply sorted_In, preReduction_In.
  split; [assumption|]. unfold passesFilters, handleShowMore.
  destruct (showCheapestOnly cfg), (directFlightsOnly cfg) eqn:Ed; simpl;
    intuition (try discriminate).
Qed.

(** ** The store *)





End ResultFacts.

(** ** The reveal ladder from any configuration *)

Lemma showMoreTimes_flags cfg n :
  airlines (showMoreTimes n cfg) = airlines cfg /\
  sortBy (showMoreTimes n cfg) = sortBy cfg /\
  (showCheapestOnly (showMoreTimes n cfg) = true -> showCheapestOnly cfg = true) /\
  (directFlightsOnly (showMoreTimes n cfg) = true -> directFlightsOnly cfg = true) /\
  (show2pc (showMoreTimes n cfg) = true -> show2pc cfg = true).
Proof.
  induction n as [|n (Ha & Hs & Hc & Hd & H2)]; [tauto|].
  cbn [showMoreTimes]. unfold handleShowMore.
  destruct (showCheapestOnly (showMoreTimes n cfg)),
           (directFlightsOnly (showMoreTimes n cfg)); cbn; intuition discriminate.
Qed.

Lemma showMoreTimes_three cfg :
  showMoreTimes 3 cfg =
    {| airlines := airlines cfg; showCheapestOnly := false;
       directFlightsOnly := false; show2pc := false; sortBy := sortBy cfg |}.
Proof.
  destruct cfg as [al c d s sb]. destruct c, d, s; reflexivity.
Qed.

(** X11: from any configuration, clicks on show-more never change the selected
    airlines or the sort key and never set a flag; after two clicks the button
    condition [shouldShowMoreButton] is false, and from the third click on the
    configuration has its three flags cleared and stays as it is. *)
Theorem show_more_from_any_configuration cfg :
  (forall n,
     airlines (showMoreTimes n cfg) = airlines cfg /\
     sortBy (showMoreTimes n cfg) = sortBy cfg /\
     (showCheapestOnly (showMoreTimes n cfg) = true -> showCheapestOnly cfg = true) /\
     (directFlightsOnly (showMoreTimes n cfg) = true -> directFlightsOnly cfg = true) /\
     (show2pc (showMoreTimes n cfg) = true -> show2pc cfg = true)) /\
  shouldShowMoreButton (showMoreTimes 2 cfg) = false /\
  (forall n, (3 <= n)%nat ->
     showMoreTimes n cfg =
       {| airlines := airlines cfg; showCheapestOnly := false;
          directFlightsOnly := false; show2pc := false; sortBy := sortBy cfg |}).
Proof.
  split; [apply showMoreTimes_flags|]. split.
  - destruct cfg as [al c d s sb]. destruct c, d, s; reflexivity.
  - intros n Hn. induction Hn as [|n Hn IH]; [apply showMoreTimes_three|].
    cbn [showMoreTimes]. rewrite IH. reflexivity.
Qed.

(** ** Invariants of the search *)

Lemma step_Settle_inv w n src outcome w' :
  step w (Settle n src outcome) = Some w' ->
  exists inv ps,
    invocations w !! n = Some inv /\
    settlePromise src outcome (promises inv) = Some ps /\
    w' = {| page := onSettled src outcome (page w);
            invocations :=
              <[n := {| promises := ps; awaiting := awaiting inv |}]> (invocations w) |}.
Proof.
  cbn [step]. destruct (invocations w !! n) as [inv|] eqn:Ei; [|discriminate].
  destruct (settlePromise src outcome (promises inv)) as [ps|] eqn:Ep; [|discriminate].
  intros [= <-]. exists inv, ps. auto.
Qed.

Lemma step_AllSettled_inv w n w' :
  step w (AllSettled n) = Some w' ->
  exists inv all,
    invocations w !! n = Some inv /\ awaiting inv = true /\
    allFlights (promises inv) = Some all /\
    w' = {| page := afterAllSettled all (page w);
            invocations :=
              <[n := {| promises := promises inv; awaiting := false |}]> (invocations w) |}.
Proof.
  cbn [step]. destruct (invocations w !! n) as [inv|] eqn:Ei; [|discriminate].
  destruct (awaiting inv) eqn:Ea; [|discriminate].
  destruct (allFlights (promises inv)) as [all|] eqn:El; [|discriminate].
  intros [= <-]. exists inv, all. auto.
Qed.

Lemma onSettled_flights src outcome p :
  flights (onSettled src outcome p) = flights p ++ batchOf outcome.
Proof.
  destruct outcome as [[|f batch]|reason]; cbn; now rewrite ?app_nil_r.
Qed.

(** What one event other than the start of a search does to the page. *)
Lemma pageStep_grows w e w' :
  isSearch e = false ->
  pageStep w e = Some w' ->
  (exists ext, flights (page w') = flights (page w) ++ ext) /\
  airlines (filters (page w')) = airlines (filters (page w)) /\
  sortBy (filters (page w')) = sortBy (filters (page w)) /\
  (showCheapestOnly (filters (page w')) = true ->
     showCheapestOnly (filters (page w)) = true) /\
  (directFlightsOnly (filters (page w')) = true ->
     directFlightsOnly (filters (page w)) = true) /\
  (show2pc (filters (page w')) = true -> show2pc (filters (page w)) = true) /\
  error (page w') = error (page w) /\
  List.length (invocations w') = List.length (invocations w).
Proof.
  destruct e as [[profile|n src outcome|n]|]; cbn [isSearch pageStep]; intros Hs H.
  - discriminate.
  - apply step_Settle_inv in H as (inv & ps & _ & _ & ->). cbn [page invocations].
    rewrite length_insert. split.
    + exists (batchOf outcome). apply onSettled_flights.
    + destruct outcome as [[|f batch]|reason]; cbn; tauto.
  - apply step_AllSettled_inv in H as (inv & all & _ & _ & _ & ->). cbn [page invocations].
    rewrite length_insert. split; [exists []; now rewrite app_nil_r|].
    cbn. destruct (searchHasDirectFlights all), (hasVfr2pc all);
      intuition discriminate.
  - injection H as <-. cbn. split; [exists []; now rewrite app_nil_r|].
    pose proof (showMoreTimes_flags (filters (page w)) 1) as H. cbn in H. tauto.
Qed.

(** X12: between two starts of a search the flight collection only grows at
    its end, in place, and the filters are only relaxed: no event of a fetch,
    no completion and no show-more click removes or reorders a flight, sets a
    flag, changes the selected airlines, the sort key or the error, or adds a
    call of [handleSearch] to those made so far. *)
Theorem collection_only_grows_within_a_search w es w' :
  forallb (fun e => negb (isSearch e)) es = true ->
  pageRun w es = Some w' ->
  (exists ext, flights (page w') = flights (page w) ++ ext) /\
  airlines (filters (page w')) = airlines (filters (page w)) /\
  sortBy (filters (page w')) = sortBy (filters (page w)) /\
  (showCheapestOnly (filters (page w')) = true ->
     showCheapestOnly (filters (page w)) = true) /\
  (directFlightsOnly (filters (page w')) = true ->
     directFlightsOnly (filters (page w)) = true) /\
  (show2pc (filters (page w')) = true -> show2pc (filters (page w)) = true) /\
  error (page w') = error (page w) /\
  List.length (invocations w') = List.length (invocations w).
Proof.
  revert w. induction es as [|e es IH]; intros w Hs H.
  - injection H as <-. split; [exists []; now rewrite app_nil_r|tauto].
  - cbn [forallb] in Hs. apply andb_true_iff in Hs as [He Hs].
    apply negb_true_iff in He.
    cbn [pageRun] in H. destruct (pageStep w e) as [w1|] eqn:E1; [|discriminate].
    destruct (pageStep_grows _ _ _ He E1) as ([ext1 F1] & A1 & S1 & C1 & D1 & P1 & R1 & L1).
    destruct (IH _ Hs H) as ([ext2 F2] & A2 & S2 & C2 & D2 & P2 & R2 & L2).
    split; [exists (ext1 ++ ext2); now rewrite F2, F1, app_assoc|].
    rewrite A2, S2, R2, L2. intuition.
Qed.

Lemma availableAirlines_nonempty profile :
  canCheckVJ profile || canCheckVNA profile = true -> availableAirlines profile <> [].
Proof.
  unfold availableAirlines.
  destruct (canCheckVJ profile), (canCheckVNA profile); cbn; discriminate.
Qed.

Lemma startSearch_cases profile w :
  (canCheckVJ profile || canCheckVNA profile = false /\
   invocations (startSearch profile w) = invocations w /\
   flights (page (startSearch profile w)) = flights (page w) /\
   loading (page (startSearch profile w)) = loading (page w) /\
   searchPerformed (page (startSearch profile w)) = searchPerformed (page w) /\
   filters (page (startSearch profile w)) = filters (page w)) \/
  (canCheckVJ profile || canCheckVNA profile = true /\
   (exists ps, invocations (startSearch profile w) =
                 invocations w ++ [ {| promises := ps; awaiting := true |} ] /\
               fulfilledSoFar ps = []) /\
   flights (page (startSearch profile w)) = [] /\
   loading (page (startSearch profile w)) = true /\
   searchPerformed (page (startSearch profile w)) = true /\
   airlines (filters (page (startSearch profile w))) = availableAirlines profile /\
   sortBy (filters (page (startSearch profile w))) = "price").
Proof.
  unfold startSearch.
  destruct (canCheckVJ profile), (canCheckVNA profile); cbn;
    [right|right|right|left]; repeat split; eauto.
Qed.

Section Reachable.

Variable localeCompare : string -> string -> Z.

Lemma pageStep_steady w e w' : steady w -> pageStep w e = Some w' -> steady w'.
Proof.
  intros (Ha & Hs & Hl & Hp) H. unfold steady.
  destruct e as [[profile|n src outcome|n]|]; cbn [pageStep] in H.
  - injection H as <-. cbn [step] in *.
    destruct (startSearch_cases profile w)
      as [(_ & -> & _ & -> & -> & ->) | (Hperm & (ps & -> & _) & _ & -> & -> & -> & ->)].
    + repeat split; tauto.
    + repeat split; auto using availableAirlines_nonempty.
      * intros _. eauto.
      * intros _ E. now apply app_eq_nil in E as [_ E].
  - apply step_Settle_inv in H as (inv & ps & Hi & _ & ->). cbn [page invocations].
    assert (Hf : filters (onSettled src outcome (page w)) = filters (page w))
      by (destruct outcome as [[|f b]|r]; reflexivity).
    assert (Hlo : loading (onSettled src outcome (page w)) = loading (page w))
      by (destruct outcome as [[|f b]|r]; reflexivity).
    assert (Hsp : searchPerformed (onSettled src outcome (page w)) = searchPerformed (page w))
      by (destruct outcome as [[|f b]|r]; reflexivity).
    rewrite Hf, Hlo, Hsp. repeat split; try tauto.
    + intros Ht. destruct (Hl Ht) as (invs & last & E & Hw). rewrite E in *.
      apply lookup_lt_Some in Hi as Hn. rewrite length_app in Hn. cbn in Hn.
      destruct (decide (n < List.length invs)%nat) as [Hlt|Hge].
      * rewrite insert_app_l by assumption. eauto.
      * assert (n = List.length invs) as -> by lia.
        rewrite lookup_last_invocation in Hi. injection Hi as <-.
        rewrite insert_last_invocation. eexists _, _. split; [reflexivity|exact Hw].
    + intros Ht E. apply Hp in Ht. apply Ht.
      apply (f_equal (@List.length _)) in E. rewrite length_insert in E.
      now destruct (invocations w).
    + intros Hne. apply Hp. intros E. apply Hne. rewrite E. reflexivity.
  - apply step_AllSettled_inv in H as (inv & all & Hi & _ & _ & ->).
    cbn [page invocations afterAllSettled loading filters searchPerformed autoAdjust
         airlines sortBy].
    repeat split; try tauto; try discriminate.
    + intros Ht E. apply Hp in Ht. apply Ht.
      apply (f_equal (@List.length _)) in E. rewrite length_insert in E.
      now destruct (invocations w).
    + intros Hne. apply Hp. intros E. apply Hne. rewrite E. reflexivity.
  - injection H as <-. cbn [clickShowMore page invocations loading filters searchPerformed].
    pose proof (showMoreTimes_flags (filters (page w)) 1) as (A1 & S1 & _).
    cbn in A1, S1. rewrite A1, S1. repeat split; tauto.
Qed.

Lemma pageRun_steady es : forall w w',
  steady w -> pageRun w es = Some w' -> steady w'.
Proof.
  induction es as [|e es IH]; intros w w' Hw H; cbn [pageRun] in H.
  - now injection H as <-.
  - destruct (pageStep w e) as [w1|] eqn:E1; [|discriminate].
    eapply IH; [|exact H]. eapply pageStep_steady; eassumption.
Qed.

Lemma initialWorld_steady : steady initialWorld.
Proof.
  repeat split; try discriminate. cbn. intros H. now contradict H.
Qed.

(** X13: in every state the page reaches from its mount through searches,
    fetch results, completions and show-more clicks, some airline is selected
    and the sort key is the price; so some stage always copies, and the
    render's call of the pipeline leaves the flight collection of the state as
    it is. *)
Theorem render_leaves_the_collection es w :
  pageRun initialWorld es = Some w ->
  airlines (filters (page w)) <> [] /\
  sortBy (filters (page w)) = "price" /\
  inputAfter (filterAndSortFlights localeCompare (filters (page w))) (flights (page w))
    = flights (page w).
Proof.
  intros H. destruct (pageRun_steady es _ _ initialWorld_steady H) as (Ha & Hs & _).
  repeat split; try assumption.
  rewrite inputAfter_value. destruct (airlines (filters (page w))); [contradiction|].
  reflexivity.
Qed.

(** X14: in every such state, the spinner ([loading]) is on only while the
    latest call of [handleSearch] still waits for its fetches, and
    [searchPerformed] is set exactly when some permitted search was started. *)
Theorem spinner_means_latest_search_waits es w :
  pageRun initialWorld es = Some w ->
  (loading (page w) = true ->
     exists invs inv, invocations w = invs ++ [inv] /\ awaiting inv = true) /\
  (searchPerformed (page w) = true <-> invocations w <> []).
Proof.
  intros H. destruct (pageRun_steady es _ _ initialWorld_steady H) as (_ & _ & Hl & Hp).
  split; assumption.
Qed.

End Reachable.

(** ** What the completion step sees *)

Lemma settlePromise_fulfilledSoFar src outcome ps : forall ps',
  settlePromise src outcome ps = Some ps' ->
  Permutation (fulfilledSoFar ps') (fulfilledSoFar ps ++ batchOf outcome).
Proof.
  induction ps as [|[s [o|]] rest IH]; intros ps' H; cbn [settlePromise] in H.
  - discriminate.
  - destruct (settlePromise src outcome rest) as [rest'|]; [|discriminate].
    injection H as <-. specialize (IH _ eq_refl).
    destruct o as [value|r]; cbn [fulfilledSoFar]; [|exact IH].
    rewrite <- app_assoc. now apply Permutation_app_head.
  - destruct (Source_eqb s src).
    + injection H as <-.
      destruct outcome as [value|r]; cbn [fulfilledSoFar batchOf].
      * apply Permutation_app_comm.
      * now rewrite app_nil_r.
    + destruct (settlePromise src outcome rest) as [rest'|]; [|discriminate].
      injection H as <-. cbn [fulfilledSoFar]. now apply IH.
Qed.

Lemma allFlights_fulfilledSoFar ps : forall all,
  allFlights ps = Some all -> all = fulfilledSoFar ps.
Proof.
  induction ps as [|[s [[value|r]|]] rest IH]; intros all H; cbn in H.
  - now injection H as <-.
  - destruct (allFlights rest) as [all'|]; [|discriminate].
    injection H as <-. cbn. now rewrite (IH all').
  - now apply IH.
  - discriminate.
Qed.

(** While only fetches of the latest call settle, the collection is a
    rearrangement of what that call's fulfilled promises hold. *)
Lemma settles_of_latest_call invs : forall es ps p w',
  Forall (fun e => exists src outcome, e = Settle (List.length invs) src outcome) es ->
  Permutation (flights p) (fulfilledSoFar ps) ->
  run {| page := p;
         invocations := invs ++ [ {| promises := ps; awaiting := true |} ] |} es
    = Some w' ->
  exists ps',
    invocations w' = invs ++ [ {| promises := ps'; awaiting := true |} ] /\
    Permutation (flights (page w')) (fulfilledSoFar ps').
Proof.
  induction es as [|e es IH]; intros ps p w' Hes Hp H.
  - injection H as <-. eauto.
  - apply Forall_cons_iff in Hes as [(src & outcome & ->) Hes].
    cbn [run] in H.
    destruct (step _ (Settle (List.length invs) src outcome)) as [w1|] eqn:E1;
      [|discriminate].
    apply step_Settle_inv in E1 as (inv & ps1 & Hi & Hs & ->).
    cbn [invocations page] in *.
    rewrite lookup_last_invocation in Hi. injection Hi as <-.
    cbn [promises awaiting] in *. rewrite insert_last_invocation in H.
    apply IH in H; [exact H|exact Hes|].
    rewrite onSettled_flights, (settlePromise_fulfilledSoFar _ _ _ _ Hs).
    now apply Permutation_app_tail.
Qed.

(** X15: for a permitted search whose fetches settle with no other call's
    fetch settling in between, the result set the completion step inspects
    (the fulfilled batches in promise order) is a rearrangement of the flight
    collection then on the page (the batches in arrival order). *)
Theorem completion_sees_the_collection w profile es w1 w2 :
  canCheckVJ profile || canCheckVNA profile = true ->
  Forall (fun e => exists src outcome,
            e = Settle (List.length (invocations w)) src outcome) es ->
  run w (Search profile :: es) = Some w1 ->
  step w1 (AllSettled (List.length (invocations w))) = Some w2 ->
  exists inv all,
    invocations w1 !! List.length (invocations w) = Some inv /\
    allFlights (promises inv) = Some all /\
    Permutation (flights (page w1)) all.
Proof.
  intros Hperm Hes H1 H2. cbn [run step] in H1.
  destruct (startSearch_cases profile w)
    as [(Hno & _) | (_ & (ps & Ei & Ef) & Fl & _)]; [congruence|].
  destruct (startSearch profile w) as [p0 invs0] eqn:E0. cbn [page invocations] in *.
  subst invs0.
  apply settles_of_latest_call in H1 as (ps' & Ei' & Hp); [|assumption|].
  - apply step_AllSettled_inv in H2 as (inv & all & Hi & _ & Hall & _).
    exists inv, all. split; [assumption|]. split; [assumption|].
    rewrite Ei', lookup_last_invocation in Hi. injection Hi as <-.
    cbn [promises] in Hall. now rewrite (allFlights_fulfilledSoFar _ _ Hall).
  - now rewrite Fl, Ef.
Qed.

(** * The admin components *)

(** ** Sorting an array of any type *)

Section StableSortFacts.

Context {A : Type}.
Variable cmp : A -> A -> Z.

Lemma insertInto_perm x l : Permutation (insertInto cmp x l) (x :: l).
Proof.
  induction l as [|y l IH]; simpl; [reflexivity|].
  destruct (cmp x y <=? 0); [reflexivity|].
  rewrite IH. apply perm_swap.
Qed.

Lemma stableSort_perm l : Permutation (stableSort cmp l) l.
Proof.
  induction l as [|x l IH]; simpl; [reflexivity|].
  rewrite insertInto_perm. now constructor.
Qed.

Hypothesis cmp_total : forall a b, 0 < cmp a b -> cmp b a <= 0.
Hypothesis cmp_trans : forall a b c, cmp a b <= 0 -> cmp b c <= 0 -> cmp a c <= 0.

Lemma insertInto_strongly x s :
  StronglySorted (fun a b => cmp a b <= 0) s ->
  StronglySorted (fun a b => cmp a b <= 0) (insertInto cmp x s).
Proof.
  intros Hs. induction s as [|y s IH]; simpl.
  - repeat constructor.
  - apply StronglySorted_inv in Hs as [Hs Hy].
    destruct (Z.leb_spec (cmp x y) 0) as [Hle|Hgt].
    + constructor; [now constructor|]. constructor; [assumption|].
      rewrite List.Forall_forall in *. intros z Hz. apply (cmp_trans x y z); auto.
    + constructor; [now apply IH|].
      rewrite List.Forall_forall in *. intros z Hz.
      apply (Permutation_in _ (insertInto_perm x s)) in Hz as [<-|Hz]; auto.
Qed.

Lemma stableSort_strongly l :
  StronglySorted (fun a b => cmp a b <= 0) (stableSort cmp l).
Proof.
  induction l; simpl; [constructor|]. now apply insertInto_strongly.
Qed.

End StableSortFacts.

(** ** SearchStatistics *)

Section StatisticsFacts.

Import SearchStatistics.

Lemma orZero_default o : orZero o = match o with Some v => v | None => 0 end.
Proof.
  destruct o as [v|]; [|reflexivity]. simpl.
  destruct (Z.eqb_spec v 0); [now subst|reflexivity].
Qed.

Lemma get_set_same k v m : get (set k v m) k = Some v.
Proof.
  induction m as [|[k' n] rest IH]; simpl.
  - now rewrite String.eqb_refl.
  - destruct (String.eqb_spec k' k) as [->|Hne]; simpl.
    + now rewrite String.eqb_refl.
    + destruct (String.eqb_spec k' k); [contradiction|exact IH].
Qed.

Lemma get_set_other k k0 v m : k0 <> k -> get (set k v m) k0 = get m k0.
Proof.
  intros Hne. induction m as [|[k' n] rest IH]; simpl.
  - destruct (String.eqb_spec k k0); [congruence|reflexivity].
  - destruct (String.eqb_spec k' k) as [->|Hk]; simpl.
    + destruct (String.eqb_spec k k0); [congruence|reflexivity].
    + destruct (String.eqb_spec k' k0); [reflexivity|exact IH].
Qed.

Lemma keys_set k v m k0 :
  In k0 (map fst (set k v m)) <-> k0 = k \/ In k0 (map fst m).
Proof.
  induction m as [|[k' n] rest IH]; simpl.
  - intuition.
  - destruct (String.eqb_spec k' k) as [->|Hk]; simpl; [intuition|].
    rewrite IH. intuition.
Qed.

Lemma NoDup_set k v m : List.NoDup (map fst m) -> List.NoDup (map fst (set k v m)).
Proof.
  induction m as [|[k' n] rest IH]; simpl; intros Hn.
  - repeat constructor. intros [].
  - apply NoDup_cons_iff in Hn as [Hk' Hn].
    destruct (String.eqb_spec k' k) as [->|Hk]; simpl.
    + now constructor.
    + constructor; [|now apply IH].
      rewrite keys_set. intros [E|E]; [now subst|contradiction].
Qed.

Lemma totalOf_set k v m :
  totalOf (set k v m) = totalOf m - orZero (get m k) + v.
Proof.
  induction m as [|[k' n] rest IH]; simpl.
  - lia.
  - destruct (String.eqb_spec k' k) as [->|Hk]; simpl.
    + destruct (Z.eqb_spec n 0); lia.
    + rewrite IH. lia.
Qed.

Lemma searchesOf_cons l logs k :
  searchesOf k (l :: logs) =
    (if (log_user_id l =? k)%string then 1 else 0) + searchesOf k logs.
Proof.
  unfold searchesOf. simpl. destruct (log_user_id l =? k)%string; simpl; lia.
Qed.

(** What the loop over the logs leaves in the map. *)
Lemma fold_bump logs : forall m,
  totalOf (fold_left bump logs m) = totalOf m + Z.of_nat (List.length logs) /\
  (List.NoDup (map fst m) -> List.NoDup (map fst (fold_left bump logs m))) /\
  (forall k, orZero (get (fold_left bump logs m) k) =
             orZero (get m k) + searchesOf k logs) /\
  (forall k, In k (map fst (fold_left bump logs m)) <->
             In k (map fst m) \/ exists l, In l logs /\ log_user_id l = k).
Proof.
  induction logs as [|l logs IH]; intros m; cbn [fold_left].
  - split; [cbn [List.length]; lia|]. split; [auto|].
    split; [intros k; unfold searchesOf; cbn; lia|].
    intros k. split; [auto|]. intros [H|(l & [] & _)]. exact H.
  - destruct (IH (bump m l)) as (T & N & V & K). unfold bump in *.
    split; [|split; [|split]].
    + rewrite T, totalOf_set. cbn [List.length]. lia.
    + intros Hn. now apply N, NoDup_set.
    + intros k. rewrite V, searchesOf_cons.
      destruct (String.eqb_spec (log_user_id l) k) as [<-|Hne].
      * rewrite get_set_same. rewrite (orZero_default (Some _)). lia.
      * rewrite get_set_other by congruence. lia.
    + intros k. rewrite K, keys_set. split.
      * intros [[->|H]|(l' & Hl' & E)]; eauto.
        -- right. exists l. split; [now left|reflexivity].
        -- right. exists l'. split; [now right|assumption].
      * intros [H|(l' & [<-|Hl'] & E)]; eauto.
Qed.

Lemma searchesOf_positive k logs :
  (exists l, In l logs /\ log_user_id l = k) -> 1 <= searchesOf k logs.
Proof.
  intros (l & Hl & E). unfold searchesOf.
  assert (H : In l (List.filter (fun l => (log_user_id l =? k)%string) logs))
    by (apply filter_In; split; [assumption|now apply String.eqb_eq]).
  destruct (List.filter _ logs); [destruct H|]. cbn [List.length]. lia.
Qed.

Lemma sumCounts_perm rows rows' :
  Permutation rows rows' -> sumCounts rows = sumCounts rows'.
Proof.
  unfold sumCounts. induction 1; simpl; lia.
Qed.

Lemma sumCounts_toStats profiles users m ks :
  sumCounts (map (toStats profiles users m) ks) =
    fold_right (fun k acc => orZero (get m k) + acc) 0 ks.
Proof.
  unfold sumCounts. induction ks as [|k ks IH]; simpl; [reflexivity|].
  now rewrite IH, orZero_default.
Qed.

Lemma sum_ext (f g : string -> Z) ks :
  (forall k, In k ks -> f k = g k) ->
  fold_right (fun k acc => f k + acc) 0 ks = fold_right (fun k acc => g k + acc) 0 ks.
Proof.
  induction ks as [|k ks IH]; intros H; simpl; [reflexivity|].
  rewrite (H k) by now left. rewrite IH; [reflexivity|].
  intros k' Hk'. apply H. now right.
Qed.

Lemma sum_over_keys m :
  List.NoDup (map fst m) ->
  fold_right (fun k acc => orZero (get m k) + acc) 0 (map fst m) = totalOf m.
Proof.
  induction m as [|[k n] rest IH]; intros Hn; [reflexivity|].
  cbn [map fst] in Hn. apply List.NoDup_cons_iff in Hn as [Hk Hn].
  cbn [map fst fold_right totalOf snd]. fold (totalOf rest).
  rewrite <- (IH Hn). f_equal.
  - cbn [get]. rewrite String.eqb_refl. now rewrite orZero_default.
  - apply sum_ext. intros k' Hk'. cbn [get].
    destruct (String.eqb_spec k k') as [->|Hne]; [contradiction|reflexivity].
Qed.

(** The rows written by a successful [fetchStats], before the case on the
    empty map: with no key both branches write the empty list. *)
Lemma fetchStats_rows logs profiles authUsers st :
  stats (fetchStats {| data := Some logs; queryError := None |} profiles authUsers st) =
    stableSort (fun a b => search_count b - search_count a)
      (map (toStats profiles (match authUsers with Some us => us | None => [] end)
              (fold_left bump logs []))
           (map fst (fold_left bump logs []))).
Proof.
  unfold fetchStats. cbn [queryError data countSearches].
  destruct (map fst (fold_left bump logs [])); reflexivity.
Qed.

Lemma fetchStats_total logs profiles authUsers st :
  totalSearches (fetchStats {| data := Some logs; queryError := None |} profiles authUsers st)
    = Z.of_nat (List.length logs).
Proof.
  unfold fetchStats. cbn [queryError data countSearches].
  destruct (List.length (map fst (fold_left bump logs [])) =? 0)%nat; reflexivity.
Qed.

(** X16: after a successful [fetchStats] there is exactly one row per user
    that has a log, and the count of a row is the number of logs of its user
    (at least one). *)
Theorem stats_count_each_user logs profiles authUsers st :
  let st' := fetchStats {| data := Some logs; queryError := None |} profiles authUsers st in
  List.NoDup (map user_id (stats st')) /\
  (forall u, In u (map user_id (stats st')) <->
             exists l, In l logs /\ log_user_id l = u) /\
  (forall r, In r (stats st') ->
     search_count r = searchesOf (user_id r) logs /\ 1 <= search_count r).
Proof.
  cbv zeta. rewrite fetchStats_rows.
  set (m := fold_left bump logs []).
  set (users := match authUsers with Some us => us | None => [] end).
  destruct (fold_bump logs []) as (_ & N & V & K). fold m in N, V, K.
  set (rows := map (toStats profiles users m) (map fst m)).
  assert (Hids : map user_id rows = map fst m).
  { unfold rows. rewrite map_map. cbn. apply map_id. }
  pose proof (stableSort_perm (fun a b => search_count b - search_count a) rows) as P.
  assert (Pm : Permutation (map user_id (stableSort
                 (fun a b => search_count b - search_count a) rows)) (map fst m)).
  { rewrite <- Hids. now apply Permutation_map. }
  split; [|split].
  - apply (Permutation_NoDup (Permutation_sym Pm)). apply N. constructor.
  - intros u. split.
    + intros Hu. apply (Permutation_in _ Pm) in Hu.
      apply K in Hu as [[]|Hu]. exact Hu.
    + intros Hu. apply (Permutation_in _ (Permutation_sym Pm)). apply K. now right.
  - intros r Hr. apply (Permutation_in _ P) in Hr.
    apply in_map_iff in Hr as (k & <- & Hk). cbn [search_count user_id toStats].
    rewrite <- orZero_default, V. cbn [get orZero]. split; [lia|].
    apply K in Hk as [[]|Hk]. apply searchesOf_positive in Hk. lia.
Qed.

(** X17: after a successful [fetchStats] the total shown is the number of
    logs, and it is the sum of the counts of the rows. *)
Theorem stats_total_is_sum logs profiles authUsers st :
  let st' := fetchStats {| data := Some logs; queryError := None |} profiles authUsers st in
  totalSearches st' = Z.of_nat (List.length logs) /\
  sumCounts (stats st') = totalSearches st'.
Proof.
  cbv zeta. rewrite fetchStats_total, fetchStats_rows. split; [reflexivity|].
  rewrite (sumCounts_perm _ _ (stableSort_perm _ _)), sumCounts_toStats.
  destruct (fold_bump logs []) as (T & N & _).
  rewrite sum_over_keys by (apply N; constructor). rewrite T. cbn. lia.
Qed.

(** X18: the rows are in descending order of count. *)
Theorem stats_sorted_by_count logs profiles authUsers st :
  StronglySorted (fun a b => search_count b <= search_count a)
    (stats (fetchStats {| data := Some logs; queryError := None |} profiles authUsers st)).
Proof.
  rewrite fetchStats_rows.
  eapply Sorted.StronglySorted_ind with
    (P := StronglySorted (fun a b => search_count b <= search_count a));
    [constructor| |apply (stableSort_strongly (fun a b => search_count b - search_count a)); intros; lia].
  intros a l _ IH Hf. constructor; [exact IH|].
  rewrite List.Forall_forall in *. intros x Hx. specialize (Hf x Hx). cbn in Hf. lia.
Qed.

(** X19: what a row shows for a user.  The e-mail is the one of the first
    user of the auth list with that id when it is there and not empty, and N/A
    when the user is not in the list or has no or an empty e-mail; the name is
    the [full_name] of the first profile with that id when it is there and not
    empty, and null when the profile is missing or has no or an empty name.  So
    no row shows an empty e-mail or an empty name. *)
Theorem stats_fallbacks logs profiles authUsers st r :
  In r (stats (fetchStats {| data := Some logs; queryError := None |} profiles authUsers st)) ->
  email r <> "" /\ full_name r <> Some "" /\
  (findUser (match authUsers with Some us => us | None => [] end) (user_id r) = None ->
     email r = "N/A") /\
  (findProfile profiles (user_id r) = None -> full_name r = None) /\
  (forall u, findUser (match authUsers with Some us => us | None => [] end) (user_id r)
               = Some u ->
     (auth_email u = None \/ auth_email u = Some "" -> email r = "N/A") /\
     (forall e, auth_email u = Some e -> e <> "" -> email r = e)) /\
  (forall p, findProfile profiles (user_id r) = Some p ->
     (profile_full_name p = None \/ profile_full_name p = Some "" -> full_name r = None) /\
     (forall name, profile_full_name p = Some name -> name <> "" ->
        full_name r = Some name)).
Proof.
  rewrite fetchStats_rows. intros Hr.
  apply (Permutation_in _ (stableSort_perm _ _)) in Hr.
  apply in_map_iff in Hr as (k & <- & _). cbn [email full_name user_id toStats].
  split; [|split; [|split; [|split; [|split]]]].
  - unfold orElse. destruct (findUser _ k) as [u|]; [|discriminate].
    destruct (auth_email u) as [e|]; [|discriminate].
    destruct (String.eqb_spec e ""); [discriminate|assumption].
  - destruct (findProfile profiles k) as [p|]; [|discriminate].
    destruct (profile_full_name p) as [name|]; [|discriminate].
    destruct (String.eqb_spec name ""); [discriminate|congruence].
  - intros ->. reflexivity.
  - intros ->. reflexivity.
  - intros u ->. unfold orElse. split.
    + intros [-> | ->]; reflexivity.
    + intros e -> He. destruct (String.eqb_spec e ""); [contradiction|reflexivity].
  - intros p ->. split.
    + intros [-> | ->]; reflexivity.
    + intros name -> Hn. destruct (String.eqb_spec name ""); [contradiction|reflexivity].
Qed.

(** X20: when the logs query fails, the rows and the total stay as they were;
    when it returns no data or no row, the table is emptied and the total is
    zero.  In every case [loading] ends cleared. *)
Theorem stats_error_and_empty logsResult profiles authUsers st :
  let st' := fetchStats logsResult profiles authUsers st in
  loading st' = false /\
  (queryError logsResult <> None ->
     stats st' = stats st /\ totalSearches st' = totalSearches st) /\
  (queryError logsResult = None ->
   data logsResult = None \/ data logsResult = Some [] ->
     stats st' = [] /\ totalSearches st' = 0).
Proof.
  cbv zeta. destruct logsResult as [d e]. unfold fetchStats. cbn [queryError data].
  destruct e as [e|].
  - split; [reflexivity|]. split; [intros _; split; reflexivity|discriminate].
  - split; [|split].
    + destruct (List.length (map fst (countSearches d)) =? 0)%nat; reflexivity.
    + intros H. now contradict H.
    + intros _ [-> | ->]; split; reflexivity.
Qed.

End StatisticsFacts.

(** ** PendingTickets *)

Section TicketFacts.

Import PendingTickets.

Lemma orElse_nonempty o d : d <> "" -> orElse o d <> "".
Proof.
  intros Hd. unfold orElse. destruct o as [v|]; [|assumption].
  destruct (String.eqb_spec v ""); assumption.
Qed.

(** X21: a successful [fetchHeldTickets] shows the tickets of the query in the
    same order and number, each with its own fields untouched.  The user name
    of a ticket is the [full_name] of the first profile with the ticket's user
    id when it is there and not empty, and N/A when the profile is missing or
    has no or an empty name, so it is never empty; the e-mail is the one of the
    first listed user with that id, if any.  A failed query leaves the list as
    it was and shows one toast.  [loading] ends cleared either way. *)
Theorem tickets_enriched_in_place ticketsResult usersData profilesData st :
  let st' := fetchHeldTickets ticketsResult usersData profilesData st in
  loading st' = false /\
  (forall ticketsData,
     queryError ticketsResult = None -> data ticketsResult = Some ticketsData ->
     Forall2 sameRow ticketsData (tickets st') /\
     (forall t, In t (tickets st') ->
        exists name, user_name t = Some name /\ name <> "" /\
          (findProfile profilesData (user_id t) = None -> name = "N/A") /\
          (forall p, findProfile profilesData (user_id t) = Some p ->
             (profile_full_name p = None \/ profile_full_name p = Some "" ->
                name = "N/A") /\
             (forall n, profile_full_name p = Some n -> n <> "" -> name = n))) /\
     (forall t, In t (tickets st') ->
        user_email t =
          match usersData with
          | Some users =>
              match findUser users (user_id t) with
              | Some u => auth_email u
              | None => None
              end
          | None => None
          end) /\
     toasts st' = toasts st) /\
  (queryError ticketsResult <> None ->
     tickets st' = tickets st /\ List.length (toasts st') = S (List.length (toasts st))).
Proof.
  cbv zeta. destruct ticketsResult as [d e]. unfold fetchHeldTickets.
  cbn [queryError data]. destruct e as [e|].
  - split; [reflexivity|]. split; [discriminate|]. intros _. cbn.
    split; [reflexivity|]. rewrite length_app. cbn. lia.
  - split; [reflexivity|]. split; [|intros H; now contradict H].
    intros ts _ ->. cbn [tickets toasts]. split; [|split; [|split; [|reflexivity]]].
    + induction ts as [|t ts IH]; cbn [map]; constructor; [|exact IH].
      repeat split.
    + intros t' (t & <- & _)%in_map_iff. cbn [user_name user_id enrich].
      eexists. split; [reflexivity|]. split; [|split].
      * apply orElse_nonempty. discriminate.
      * intros ->. reflexivity.
      * intros p ->. unfold orElse. split.
        -- intros [-> | ->]; reflexivity.
        -- intros n -> Hn. destruct (String.eqb_spec n ""); [contradiction|reflexivity].
    + intros t' (t & <- & _)%in_map_iff. cbn [user_email user_id enrich].
      destruct usersData as [users|]; reflexivity.
Qed.

Lemma filter_sublist {A} (p : A -> bool) l : sublist (List.filter p l) l.
Proof.
  induction l as [|x l IH]; simpl; [constructor|].
  destruct (p x); now constructor.
Qed.

(** X22: [handleDeleteTicket] never adds or reorders tickets.  Confirmed
    without error, it removes exactly the tickets with the chosen id, keeps
    every other ticket and closes the dialog; on an error, or when no id is
    chosen, the list and the dialog stay as they were. *)
Theorem delete_removes_only_the_chosen_ticket deleteError st :
  let st' := handleDeleteTicket deleteError st in
  sublist (tickets st') (tickets st) /\
  (forall k, deleteTicketId st = Some k -> k <> "" -> deleteError = None ->
     (forall t, In t (tickets st') <-> In t (tickets st) /\ id t <> k) /\
     deleteTicketId st' = None) /\
  (deleteTicketId st = None \/ deleteTicketId st = Some "" \/ deleteError <> None ->
     tickets st' = tickets st /\ deleteTicketId st' = deleteTicketId st).
Proof.
  cbv zeta. unfold handleDeleteTicket.
  destruct (deleteTicketId st) as [k|] eqn:Ek.
  - destruct (String.eqb_spec k "") as [->|Hk].
    + rewrite ?Ek. split; [reflexivity|]. split; [|tauto].
      intros k' [= <-] Hk'. now contradict Hk'.
    + destruct deleteError as [e|]; cbn [tickets deleteTicketId].
      * split; [reflexivity|]. split; [discriminate|]. rewrite ?Ek. tauto.
      * split; [apply filter_sublist|]. split.
        -- intros k' [= <-] _ _. split; [|reflexivity].
           intros t. rewrite filter_In, negb_true_iff.
           destruct (String.eqb_spec (id t) k); intuition congruence.
        -- intros [H|[[= H]|H]]; [discriminate|contradiction|now contradict H].
  - rewrite ?Ek. split; [reflexivity|]. split; [discriminate|tauto].
Qed.

End TicketFacts.

(** ** The order in which the sources answer *)

Section ArrivalOrder.

Variable localeCompare : string -> string -> Z.

Local Abbreviation compareBy cfg := (sortCompare (compareFlights localeCompare cfg)).

Lemma filter_perm (p : Flight -> bool) l l' :
  Permutation l l' -> Permutation (List.filter p l) (List.filter p l').
Proof.
  induction 1 as [|x l l' H IH|x y l|l l' l'' H1 IH1 H2 IH2]; simpl.
  - constructor.
  - destruct (p x); [now constructor|assumption].
  - destruct (p x), (p y); try reflexivity. apply perm_swap.
  - now transitivity (List.filter p l').
Qed.

Lemma reduce1_cheaper_least l g :
  reduce1 cheaper l = Some g -> In g l /\ forall f, In f l -> price g <= price f.
Proof.
  intros H. split; [now apply reduce1_cheaper_In|].
  apply reduce1_cheaper_split in H as (k1 & k2 & -> & H1 & H2).
  intros f [Hf|[<-|Hf]]%in_app_or; [now apply H1|lia|].
  apply Z.lt_le_incl. now apply H2.
Qed.

(** The least price does not depend on the order of the sequence. *)
Lemma reduce1_cheaper_perm l l' :
  Permutation l l' ->
  match reduce1 cheaper l, reduce1 cheaper l' with
  | Some v, Some v' => price v = price v'
  | None, None => True
  | _, _ => False
  end.
Proof.
  intros P.
  destruct (reduce1 cheaper l) as [v|] eqn:E, (reduce1 cheaper l') as [v'|] eqn:E'.
  - apply reduce1_cheaper_least in E as [Iv Lv], E' as [Iv' Lv'].
    apply Z.le_antisymm.
    + apply Lv. now apply (Permutation_in _ (Permutation_sym P)).
    + apply Lv'. now apply (Permutation_in _ P).
  - destruct l' as [|x l']; [|discriminate].
    apply Permutation_sym, Permutation_nil in P. now subst.
  - destruct l as [|x l]; [|discriminate].
    apply Permutation_nil in P. now subst.
  - exact I.
Qed.

(** X23: the result does not depend on which source answers first.  Without
    [showCheapestOnly], two arrival orders of the same flights give the same
    flights; with it and the sort by price, they give the same airlines and
    prices in the same order (on a tie the flight kept may differ, not its
    price). *)
Theorem arrival_order_does_not_matter cfg fs fs' :
  Permutation fs fs' ->
  (showCheapestOnly cfg = false ->
     Permutation (evaluate localeCompare cfg fs) (evaluate localeCompare cfg fs')) /\
  (showCheapestOnly cfg = true -> sortBy cfg = "price" ->
     map (fun f => (airline f, price f)) (evaluate localeCompare cfg fs) =
     map (fun f => (airline f, price f)) (evaluate localeCompare cfg fs')).
Proof.
  intros P.
  assert (Ppre : Permutation (preReduction cfg fs) (preReduction cfg fs'))
    by (rewrite !preReduction_keeps; now apply filter_perm).
  split.
  - intros Hc. rewrite !evaluate_value, Hc.
    now rewrite (sorted_perm (compareBy cfg) (preReduction cfg fs)),
                (sorted_perm (compareBy cfg) (preReduction cfg fs')).
  - intros Hc Hs. rewrite !evaluate_value, Hc.
    pose proof (reduce1_cheaper_perm _ _ (filter_perm isVJ _ _ Ppre)) as HJ.
    pose proof (reduce1_cheaper_perm _ _ (filter_perm isVNA _ _ Ppre)) as HN.
    destruct (reduce1 cheaper (List.filter isVJ (preReduction cfg fs))) as [v|] eqn:Ev;
    destruct (reduce1 cheaper (List.filter isVJ (preReduction cfg fs'))) as [v'|] eqn:Ev';
      try contradiction;
    destruct (reduce1 cheaper (List.filter isVNA (preReduction cfg fs))) as [w|] eqn:Ew;
    destruct (reduce1 cheaper (List.filter isVNA (preReduction cfg fs'))) as [w'|] eqn:Ew';
      try contradiction.
    all: try (apply cheapest_of_airline in Ev as [Ev%isVJ_spec _];
              apply cheapest_of_airline in Ev' as [Ev'%isVJ_spec _]).
    all: try (apply cheapest_of_airline in Ew as [Ew%isVNA_spec _];
              apply cheapest_of_airline in Ew' as [Ew'%isVNA_spec _]).
    all: cbn [nonNull omap list_omap]; rewrite ?sorted_pair.
    all: rewrite ?(compareBy_price localeCompare cfg _ _ Hs).
    all: cbn [sorted insertSorted map]; try congruence.
    rewrite HJ, HN. destruct (price v' - price w' <=? 0); cbn [map]; congruence.
Qed.

End ArrivalOrder.

(** ** Examples for the further properties *)

Lemma ordinalCompare_trans a b c :
  ordinalCompare a b <= 0 -> ordinalCompare b c <= 0 -> ordinalCompare a c <= 0.
Proof.
  assert (H : forall a b c, String.compare a b <> Gt -> String.compare b c <> Gt ->
                            String.compare a c <> Gt).
  { clear. induction a as [|x a IH]; intros [|y b] [|z c]; simpl; try congruence.
    unfold Ascii.compare.
    destruct (N.compare_spec (N_of_ascii x) (N_of_ascii y)),
             (N.compare_spec (N_of_ascii y) (N_of_ascii z)),
             (N.compare_spec (N_of_ascii x) (N_of_ascii z));
      try congruence; try lia; eauto. }
  unfold ordinalCompare. intros H1 H2.
  specialize (H a b c).
  destruct (String.compare a b), (String.compare b c), (String.compare a c);
    try lia; exfalso; apply H; congruence.
Qed.

Lemma returned_flights_pass_filters_example :
  In (oneWay "j1" "VJ" 120 "ECO") (evaluate ordinalCompare byDeparture mixed) /\
  passesFilters byDeparture (oneWay "j1" "VJ" 120 "ECO").
Proof.
  assert (H : In (oneWay "j1" "VJ" 120 "ECO") (evaluate ordinalCompare byDeparture mixed))
    by (right; left; reflexivity).
  split; [exact H|].
  exact (proj2 (returned_flights_pass_filters ordinalCompare byDeparture mixed _ H)).
Defined.

Lemma relaxed_result_is_all_passing_example :
  showCheapestOnly byDeparture = false /\
  Permutation (evaluate ordinalCompare byDeparture mixed)
              (List.filter (keeps byDeparture) mixed).
Proof.
  split; [reflexivity|].
  exact (proj1 (relaxed_result_is_all_passing ordinalCompare byDeparture mixed eq_refl)).
Defined.

Lemma cheapest_only_keeps_each_airline_example :
  showCheapestOnly initialFilters = true /\
  ((exists f, In f tie /\ passesFilters initialFilters f /\ airline f = "VNA") <->
   (exists g, In g (evaluate ordinalCompare initialFilters tie) /\ airline g = "VNA")).
Proof.
  split; [reflexivity|].
  apply (cheapest_only_keeps_each_airline ordinalCompare initialFilters tie "VNA" eq_refl).
  right. reflexivity.
Defined.

Lemma no_direct_flight_no_result_example :
  directFlightsOnly (filters deadEnd) = true /\
  hasDirectFlights (flights deadEnd) = false /\
  searchHasDirectFlights (flights deadEnd) = true /\
  shouldShowMoreButton (filters deadEnd) = true /\
  showMoreButtonRendered ordinalCompare deadEnd = false.
Proof.
  split; [reflexivity|]. split; [reflexivity|]. split; [reflexivity|].
  split; [reflexivity|].
  exact (proj2 (no_direct_flight_no_result ordinalCompare deadEnd eq_refl eq_refl)).
Defined.

Lemma show_more_never_hides_example :
  In (oneWay "b" "VJ" 100 "ECO") (evaluate ordinalCompare initialFilters twins) /\
  In (oneWay "b" "VJ" 100 "ECO")
     (evaluate ordinalCompare (handleShowMore initialFilters) twins).
Proof.
  assert (H : In (oneWay "b" "VJ" 100 "ECO") (evaluate ordinalCompare initialFilters twins))
    by (left; reflexivity).
  split; [exact H|].
  exact (show_more_never_hides ordinalCompare initialFilters twins _ H).
Defined.


Lemma collection_only_grows_within_a_search_example :
  exists w',
    forallb (fun e => negb (isSearch e)) lateBatchThenClick = true /\
    pageRun twoSearches lateBatchThenClick = Some w' /\
    exists ext, flights (page w') = flights (page twoSearches) ++ ext.
Proof.
  eexists. split; [reflexivity|]. split; [reflexivity|].
  exact (proj1 (collection_only_grows_within_a_search twoSearches lateBatchThenClick _
                  eq_refl eq_refl)).
Defined.

Lemma render_leaves_the_collection_example :
  exists w,
    pageRun initialWorld searchThenClick = Some w /\
    inputAfter (filterAndSortFlights ordinalCompare (filters (page w))) (flights (page w))
      = flights (page w).
Proof.
  eexists. split; [reflexivity|].
  exact (proj2 (proj2 (render_leaves_the_collection ordinalCompare searchThenClick _
                         eq_refl))).
Defined.

Lemma spinner_means_latest_search_waits_example :
  exists w,
    pageRun initialWorld (map FromLoop onlyVietJet) = Some w /\
    (loading (page w) = true ->
       exists invs inv, invocations w = invs ++ [inv] /\ awaiting inv = true).
Proof.
  eexists. split; [reflexivity|].
  exact (proj1 (spinner_means_latest_search_waits (map FromLoop onlyVietJet) _ eq_refl)).
Defined.

Lemma completion_sees_the_collection_example :
  exists w1 w2,
    canCheckVJ bothAirlines || canCheckVNA bothAirlines = true /\
    run initialWorld (Search bothAirlines :: vnaFirst) = Some w1 /\
    step w1 (AllSettled 0) = Some w2 /\
    flights (page w1) = [oneWay "n1" "VNA" 100 "VFR"; oneWay "j1" "VJ" 120 "ECO"] /\
    exists inv all,
      invocations w1 !! 0%nat = Some inv /\
      allFlights (promises inv) = Some all /\
      Permutation (flights (page w1)) all.
Proof.
  do 2 eexists. split; [reflexivity|]. split; [reflexivity|]. split; [reflexivity|].
  split; [reflexivity|].
  refine (completion_sees_the_collection initialWorld bothAirlines vnaFirst _ _
            eq_refl _ eq_refl eq_refl).
  repeat constructor; eauto.
Defined.

Lemma arrival_order_does_not_matter_example :
  Permutation tie (rev tie) /\
  map (fun f => (airline f, price f)) (evaluate ordinalCompare initialFilters tie) =
  map (fun f => (airline f, price f)) (evaluate ordinalCompare initialFilters (rev tie)).
Proof.
  split; [apply Permutation_rev|].
  exact (proj2 (arrival_order_does_not_matter ordinalCompare initialFilters tie (rev tie)
                  (Permutation_rev tie)) eq_refl eq_refl).
Defined.


Lemma cheapest_only_keeps_last_minimum_example :
  showCheapestOnly initialFilters = true /\
  In (oneWay "b" "VJ" 100 "ECO") (evaluate ordinalCompare initialFilters twins) /\
  ~ In (oneWay "a" "VJ" 100 "ECO") (evaluate ordinalCompare initialFilters twins).
Proof.
  pose proof (proj2 (cheapest_only_keeps_last_minimum ordinalCompare initialFilters twins
                       eq_refl)) as H.
  change (preReduction initialFilters twins) with twins in H.
  split; [reflexivity|]. split.
  - apply H. split; [left; reflexivity|]. split.
    + intros f [<-|[<-|[]]] _; cbn; lia.
    + exists [oneWay "a" "VJ" 100 "ECO"], []. split; [reflexivity|]. intros f [].
  - intros Ha. apply H in Ha as (_ & _ & l1 & l2 & E & Hlt).
    destruct l1 as [|x [|y l1]]; unfold twins in E; cbn in E.
    + injection E as <-. specialize (Hlt (oneWay "b" "VJ" 100 "ECO")).
      cbn in Hlt. assert (100 < 100) by (apply Hlt; auto). lia.
    + injection E as _ E. discriminate E.
    + injection E as _ _ E. destruct l1; discriminate E.
Defined.


Lemma price_sort_is_stable_example :
  sortBy relaxedByPrice = "price" /\
  showCheapestOnly relaxedByPrice = false /\
  evaluate ordinalCompare relaxedByPrice fourPrices =
    [oneWay "b" "VJ" 100 "ECO"; oneWay "d" "VJ" 100 "ECO";
     oneWay "a" "VJ" 200 "ECO"; oneWay "c" "VNA" 200 "VFR"] /\
  StronglySorted (fun a b => price a <= price b)
    (evaluate ordinalCompare relaxedByPrice fourPrices) /\
  List.filter (fun f => price f =? 200) (evaluate ordinalCompare relaxedByPrice fourPrices) =
  List.filter (fun f => keeps relaxedByPrice f && (price f =? 200)) fourPrices.
Proof.
  destruct (price_sort_is_stable ordinalCompare relaxedByPrice fourPrices eq_refl)
    as [Hsorted Hstable].
  split; [reflexivity|]. split; [reflexivity|]. split; [reflexivity|].
  split; [exact Hsorted|exact (Hstable eq_refl 200)].
Defined.

Lemma duration_sort_orders_by_digits_example :
  sortBy byDuration = "duration" /\
  durationsExact twoDurations /\
  evaluate ordinalCompare byDuration twoDurations =
    [lasting "long" "10h 5m"; lasting "short" "2h 10m"] /\
  StronglySorted (fun a b => durationValue a <= durationValue b)
    (evaluate ordinalCompare byDuration twoDurations).
Proof.
  assert (H : durationsExact twoDurations).
  { intros f [<-|[<-|[]]]; eexists; (split; [reflexivity|reflexivity]). }
  split; [reflexivity|]. split; [exact H|]. split; [reflexivity|].
  exact (duration_sort_orders_by_digits ordinalCompare byDuration twoDurations eq_refl H).
Defined.

Lemma departure_sort_orders_example :
  sortBy byDeparture = "departure" /\
  evaluate ordinalCompare byDeparture twoDepartures =
    [leaving "early" "06:40"; leaving "late" "21:15"] /\
  StronglySorted
    (fun a b => ordinalCompare (time (departure a)) (time (departure b)) <= 0)
    (evaluate ordinalCompare byDeparture twoDepartures).
Proof.
  split; [reflexivity|]. split; [reflexivity|].
  exact (departure_sort_orders ordinalCompare byDeparture twoDepartures eq_refl
           ordinalCompare_antisym ordinalCompare_trans).
Defined.

Lemma stats_fallbacks_example :
  SearchStatistics.stats
    (SearchStatistics.fetchStats {| data := Some fallbackLogs; queryError := None |}
       fallbackProfiles fallbackUsers emptyStats) =
    [statsRow "u1" "N/A" None 1; statsRow "u2" "an@example.com" (Some "An") 1;
     statsRow "u3" "N/A" None 1; statsRow "u4" "N/A" None 1] /\
  (SearchStatistics.email (statsRow "u1" "N/A" None 1) = "N/A" /\
   SearchStatistics.full_name (statsRow "u1" "N/A" None 1) = None) /\
  (SearchStatistics.email (statsRow "u2" "an@example.com" (Some "An") 1) = "an@example.com" /\
   SearchStatistics.full_name (statsRow "u2" "an@example.com" (Some "An") 1) = Some "An") /\
  (SearchStatistics.email (statsRow "u3" "N/A" None 1) = "N/A" /\
   SearchStatistics.full_name (statsRow "u3" "N/A" None 1) = None) /\
  (SearchStatistics.email (statsRow "u4" "N/A" None 1) = "N/A" /\
   SearchStatistics.full_name (statsRow "u4" "N/A" None 1) = None).
Proof.
  split; [reflexivity|].
  split; [|split; [|split]].
  - destruct (stats_fallbacks fallbackLogs fallbackProfiles fallbackUsers emptyStats
                (statsRow "u1" "N/A" None 1) (or_introl eq_refl))
      as (_ & _ & Hnouser & Hnoprofile & _ & _).
    split; [exact (Hnouser eq_refl)|exact (Hnoprofile eq_refl)].
  - destruct (stats_fallbacks fallbackLogs fallbackProfiles fallbackUsers emptyStats
                (statsRow "u2" "an@example.com" (Some "An") 1)
                (or_intror (or_introl eq_refl)))
      as (_ & _ & _ & _ & Huser & Hprofile).
    split.
    + apply (proj2 (Huser _ eq_refl) "an@example.com"); [reflexivity|discriminate].
    + apply (proj2 (Hprofile _ eq_refl) "An"); [reflexivity|discriminate].
  - destruct (stats_fallbacks fallbackLogs fallbackProfiles fallbackUsers emptyStats
                (statsRow "u3" "N/A" None 1)
                (or_intror (or_intror (or_introl eq_refl))))
      as (_ & _ & _ & _ & Huser & Hprofile).
    split.
    + exact (proj1 (Huser _ eq_refl) (or_intror eq_refl)).
    + exact (proj1 (Hprofile _ eq_refl) (or_intror eq_refl)).
  - destruct (stats_fallbacks fallbackLogs fallbackProfiles fallbackUsers emptyStats
                (statsRow "u4" "N/A" None 1)
                (or_intror (or_intror (or_intror (or_introl eq_refl)))))
      as (_ & _ & _ & _ & Huser & Hprofile).
    split.
    + exact (proj1 (Huser _ eq_refl) (or_introl eq_refl)).
    + exact (proj1 (Hprofile _ eq_refl) (or_introl eq_refl)).
Defined.

Lemma tickets_enriched_in_place_example :
  PendingTickets.tickets
    (PendingTickets.fetchHeldTickets {| data := Some fourTickets; queryError := None |}
       fallbackUsers fallbackProfiles noTickets) =
    [heldTicket "t1" "u1" (Some "N/A") None;
     heldTicket "t2" "u2" (Some "An") (Some "an@example.com");
     heldTicket "t3" "u3" (Some "N/A") (Some "");
     heldTicket "t4" "u4" (Some "N/A") None] /\
  (exists name,
     PendingTickets.user_name (heldTicket "t3" "u3" (Some "N/A") (Some "")) = Some name /\
     name = "N/A") /\
  (exists name,
     PendingTickets.user_name
       (heldTicket "t2" "u2" (Some "An") (Some "an@example.com")) = Some name /\
     name = "An") /\
  PendingTickets.tickets
    (PendingTickets.fetchHeldTickets
       {| data := None; queryError := Some "network" |}
       fallbackUsers fallbackProfiles noTickets) = [].
Proof.
  split; [reflexivity|].
  destruct (tickets_enriched_in_place {| data := Some fourTickets; queryError := None |}
              fallbackUsers fallbackProfiles noTickets)
    as (_ & Hok & _).
  destruct (Hok fourTickets eq_refl eq_refl) as (_ & Hname & _ & _).
  split; [|split].
  - destruct (Hname (heldTicket "t3" "u3" (Some "N/A") (Some ""))
                (or_intror (or_intror (or_introl eq_refl))))
      as (name & E & _ & _ & Hsome).
    exists name. split; [exact E|].
    exact (proj1 (Hsome _ eq_refl) (or_intror eq_refl)).
  - destruct (Hname (heldTicket "t2" "u2" (Some "An") (Some "an@example.com"))
                (or_intror (or_introl eq_refl)))
      as (name & E & _ & _ & Hsome).
    exists name. split; [exact E|].
    apply (proj2 (Hsome _ eq_refl) "An"); [reflexivity|discriminate].
  - destruct (tickets_enriched_in_place
                {| data := None; queryError := Some "network" |}
                fallbackUsers fallbackProfiles noTickets)
      as (_ & _ & Hfail).
    apply Hfail. discriminate.
Defined.
